(** * apollo-datasource-firestore: codec, converter and data source

    A shallow embedding of [src/helpers.ts] and [src/datasource.ts], with
    the Batching Loader of the specification, whose code is not among the
    sources.  The library the code calls is a parameter: the document
    store behind a collection handle, and the argument checks of the
    constructors of firebase-admin.

    JavaScript strings are modelled as [string] (sequences of the code
    units below 256), JavaScript numbers by their canonical decimal expansion
    (the triple [s], [k], [n] of ECMAScript's Number::toString), objects as
    association lists in property order. *)

From Stdlib Require Import ZArith NArith List String Ascii Bool Lia.
From Stdlib Require Import Numbers.DecimalString Numbers.DecimalN.
Import ListNotations.
Open Scope Z_scope.
Open Scope string_scope.

(** ** Strings *)

Module Str.

(** [zeros n] is the string of [n] characters "0". *)
Fixpoint zeros (n : nat) : string :=
  match n with
  | O => ""
  | S m => String "0" (zeros m)
  end.

Fixpoint take (n : nat) (s : string) : string :=
  match n, s with
  | S m, String c r => String c (take m r)
  | _, _ => ""
  end.

Fixpoint drop (n : nat) (s : string) : string :=
  match n, s with
  | S m, String _ r => drop m r
  | _, _ => s
  end.

Definition is_digit (c : ascii) : bool :=
  let n := nat_of_ascii c in (48 <=? n)%nat && (n <=? 57)%nat.

Fixpoint all_digits (s : string) : bool :=
  match s with
  | "" => true
  | String c r => is_digit c && all_digits r
  end.

(** ECMAScript [StrWhiteSpaceChar], among the code units below 256: TAB,
    LF, VT, FF, CR, SP and NBSP. *)
Definition is_space (c : ascii) : bool :=
  let n := nat_of_ascii c in
  ((9 <=? n)%nat && (n <=? 13)%nat) || (n =? 32)%nat || (n =? 160)%nat.

Fixpoint trim_start (s : string) : string :=
  match s with
  | String c r => if is_space c then trim_start r else s
  | "" => ""
  end.

(** Longest prefix of decimal digits, and the rest. *)
Fixpoint span_digits (s : string) : string * string :=
  match s with
  | String c r =>
      if is_digit c
      then let (d, t) := span_digits r in (String c d, t)
      else ("", s)
  | "" => ("", "")
  end.

(** [String.prototype.split] with a one-character separator: the list of
    the pieces between the occurrences of [sep]; never empty. *)
Fixpoint split (sep : ascii) (s : string) : list string :=
  match s with
  | "" => [""]
  | String c r =>
      if Ascii.eqb c sep then "" :: split sep r
      else match split sep r with
           | h :: t => String c h :: t
           | [] => [String c ""]
           end
  end.

(** [has_char c s]: the character [c] occurs in [s]. *)
Fixpoint has_char (c : ascii) (s : string) : bool :=
  match s with
  | "" => false
  | String a r => Ascii.eqb a c || has_char c r
  end.

Definition starts_with_digit (s : string) : bool :=
  match s with
  | String c _ => is_digit c
  | "" => false
  end.

End Str.

(** ** Numbers

    A JavaScript number other than NaN, the infinities and zero is
    [Finite neg ds n]: the value whose shortest round-tripping decimal
    expansion has the significant digits [ds] (the integer [s] of
    ECMAScript's Number::toString, [k = length ds]) and decimal point
    position [n], that is, plus or minus [0.ds * 10^n].  The two zeros
    print alike and are one value here.  Reading a numeral gives the
    number with exactly its digits: on the numerals Number::toString
    prints this is what JavaScript reads; the rounding of any other numeral
    to the nearest double, and its overflow to an infinity, are not
    modelled. *)

Module Num.

Import Str.

Inductive number : Type :=
| NaN
| Infinity (negative : bool)
| Zero
| Finite (negative : bool) (digits : string) (pt : Z).

Fixpoint last_nonzero (s : string) : bool :=
  match s with
  | "" => false
  | String c "" => negb (Ascii.eqb c "0")
  | String _ r => last_nonzero r
  end.

Definition first_nonzero (s : string) : bool :=
  match s with
  | String c _ => negb (Ascii.eqb c "0")
  | "" => false
  end.

(** The significant digits of a finite number: digits only, not empty, no
    leading and no trailing zero. *)
Definition wf_digits (ds : string) : bool :=
  all_digits ds && first_nonzero ds && last_nonzero ds.

Definition wf (x : number) : bool :=
  match x with
  | Finite _ ds _ => wf_digits ds
  | _ => true
  end.

Definition is_finite (x : number) : bool :=
  match x with
  | NaN | Infinity _ => false
  | _ => true
  end.

(** An integer that prints without an exponent: [k <= n <= 21]. *)
Definition is_plain_integer (x : number) : bool :=
  match x with
  | Zero => true
  | Finite _ ds n => wf_digits ds && (Z.of_nat (length ds) <=? n)%Z && (n <=? 21)%Z
  | _ => false
  end.

(** Decimal numeral of a natural number, as ECMAScript prints exponents. *)
Definition dec (e : N) : string := NilEmpty.string_of_uint (N.to_uint e).

Definition undec (s : string) : N :=
  match NilEmpty.uint_of_string s with
  | Some u => N.of_uint u
  | None => 0%N
  end.

(** The exponent of scientific notation: [e], the sign, the decimal
    numeral of the absolute value. *)
Definition exponent_part (e : Z) : string :=
  String "e" ((if (e <? 0)%Z then "-" else "+") ++ dec (Z.to_N (Z.abs e))).

(** Scientific notation: one digit, the others after a point if there are
    any, and the exponent. *)
Definition scientific (ds : string) (e : Z) : string :=
  match ds with
  | String d "" => String d (exponent_part e)
  | String d rest => String d ("." ++ rest ++ exponent_part e)
  | "" => ""
  end.

(** Number::toString(x, 10), steps 5 onwards, for a positive finite number
    with digits [ds] ([k] of them) and point position [n]. *)
Definition toString_finite (ds : string) (n : Z) : string :=
  let k := Z.of_nat (length ds) in
  if (k <=? n)%Z && (n <=? 21)%Z then
    ds ++ zeros (Z.to_nat (n - k))
  else if (0 <? n)%Z && (n <=? 21)%Z then
    take (Z.to_nat n) ds ++ "." ++ drop (Z.to_nat n) ds
  else if (-6 <? n)%Z && (n <=? 0)%Z then
    "0." ++ zeros (Z.to_nat (- n)) ++ ds
  else
    scientific ds (n - 1).

(** Number::toString(x, 10): what a template literal interpolates. *)
Definition toString (x : number) : string :=
  match x with
  | NaN => "NaN"
  | Zero => "0"
  | Infinity neg => if neg then "-Infinity" else "Infinity"
  | Finite neg ds n =>
      if neg then "-" ++ toString_finite ds n else toString_finite ds n
  end.

Definition read_sign (s : string) : bool * string :=
  match s with
  | String c r =>
      if Ascii.eqb c "-" then (true, r)
      else if Ascii.eqb c "+" then (false, r)
      else (false, s)
  | "" => (false, s)
  end.

Fixpoint leading_zeros (s : string) : nat :=
  match s with
  | String c r => if Ascii.eqb c "0" then S (leading_zeros r) else O
  | "" => O
  end.

Fixpoint strip_trailing_zeros (s : string) : string :=
  match s with
  | "" => ""
  | String c r =>
      match strip_trailing_zeros r with
      | "" => if Ascii.eqb c "0" then "" else String c ""
      | r' => String c r'
      end
  end.

(** The number with the digit string [ds] and point position [pt]
    ([0.ds * 10^pt]), in canonical form. *)
Definition normalize (neg : bool) (ds : string) (pt : Z) : number :=
  let z := leading_zeros ds in
  match strip_trailing_zeros (drop z ds) with
  | "" => Zero
  | ds' => Finite neg ds' (pt - Z.of_nat z)
  end.

(** parseInt(s, 10): leading white space, an optional sign, then the longest
    run of decimal digits; NaN when there is none. *)
Definition parseInt (s : string) : number :=
  let (neg, s1) := read_sign (trim_start s) in
  let (ds, _) := span_digits s1 in
  match ds with
  | "" => NaN
  | _ => normalize neg ds (Z.of_nat (length ds))
  end.

(** The ExponentPart of a StrDecimalLiteral: [e] or [E], an optional sign
    and digits; 0 when there is none (no digits read as 0 too). *)
Definition read_exponent (s : string) : Z :=
  match s with
  | String c r =>
      if Ascii.eqb c "e" || Ascii.eqb c "E" then
        let (eneg, r1) := read_sign r in
        let (ed, _) := span_digits r1 in
        if eneg then - Z.of_N (undec ed) else Z.of_N (undec ed)
      else 0
  | "" => 0
  end.

(** The digits after a decimal point, if [s] starts with one, and the
    rest. *)
Definition read_fraction (s : string) : string * string :=
  match s with
  | String c r => if Ascii.eqb c "." then span_digits r else ("", s)
  | "" => ("", s)
  end.

(** The longest prefix of [s] that is a StrUnsignedDecimalLiteral, as a
    number of sign [neg]; NaN when there is none. *)
Definition read_decimal (neg : bool) (s : string) : number :=
  if prefix "Infinity" s then Infinity neg
  else
    let (ip, s2) := span_digits s in
    let (fp, s3) := read_fraction s2 in
    match ip ++ fp with
    | "" => NaN
    | ds => normalize neg ds (Z.of_nat (length ip) + read_exponent s3)
    end.

(** parseFloat(s): leading white space and an optional sign, then the
    longest prefix that is a StrUnsignedDecimalLiteral. *)
Definition parseFloat (s : string) : number :=
  let (neg, s1) := read_sign (trim_start s) in
  read_decimal neg s1.

(** The four notations of a printed positive finite number. *)
Inductive notation (ds : string) (n : Z) : string -> Prop :=
| NInteger :
    Z.of_nat (length ds) <= n <= 21 ->
    notation ds n (ds ++ zeros (Z.to_nat (n - Z.of_nat (length ds))))
| NPoint :
    0 < n < Z.of_nat (length ds) ->
    notation ds n (take (Z.to_nat n) ds ++ "." ++ drop (Z.to_nat n) ds)
| NFraction :
    -6 < n <= 0 ->
    notation ds n ("0." ++ zeros (Z.to_nat (- n)) ++ ds)
| NScientific :
    notation ds n (scientific ds (n - 1)).

(** ToString of an argument that may be missing: [undefined] prints as
    "undefined". *)
Definition arg_string (o : option string) : string :=
  match o with
  | Some s => s
  | None => "undefined"
  end.

End Num.


(** ** Values

    The values the code handles: the JavaScript primitives, arrays, plain
    objects (property lists in insertion order, with distinct names),
    callables, and the instances of the three Firestore classes the codec
    knows.  An instance is the data of its fields; the constructors of
    firebase-admin, which check the fields and may throw, are in [Admin]
    below. *)

Module Js.

Import Str Num.

(** A Firestore client ([collection.firestore]). *)
Record Firestore : Type := { projectId : string }.

#[local] Unset Elimination Schemes.

Inductive value : Type :=
| VUndefined
| VNull
| VBool (b : bool)
| VNum (x : number)
| VStr (s : string)
| VArr (elems : list value)
| VObj (props : list (string * value))
| VFun (name : string)
| VTimestamp (seconds nanoseconds : number)
| VGeoPoint (latitude longitude : number)
| VDocRef (firestore : Firestore) (path : string).

(** The [key] argument of a replacer or reviver: [string | number]. *)
Inductive key : Type :=
| KName (name : string)
| KIndex (i : nat).

(** What JSON text denotes. *)
Inductive json : Type :=
| JNull
| JBool (b : bool)
| JNum (x : number)
| JStr (s : string)
| JArr (elems : list json)
| JObj (members : list (string * json)).

#[local] Set Elimination Schemes.

(** Exceptions. *)
Inductive error : Type :=
| Error (message : string)
| TypeError (message : string)
| StoreError (message : string).

Inductive result (A : Type) : Type :=
| Ok (a : A)
| Throw (e : error).

Arguments Ok {A} a.
Arguments Throw {A} e.

(** ToBoolean. *)
Definition truthy (v : value) : bool :=
  match v with
  | VUndefined | VNull => false
  | VBool b => b
  | VNum x => match x with NaN | Zero => false | _ => true end
  | VStr s => negb (s =? "")
  | _ => true
  end.

Fixpoint lookup {A : Type} (name : string) (ps : list (string * A)) : option A :=
  match ps with
  | [] => None
  | (k, x) :: r => if k =? name then Some x else lookup name r
  end.

(** The [in] operator on a plain object. *)
Definition has_prop {A : Type} (name : string) (ps : list (string * A)) : bool :=
  match lookup name ps with
  | Some _ => true
  | None => false
  end.

(** Defining a property: an existing name keeps its place and takes the
    new value, a new name goes last. *)
Fixpoint set_prop {A : Type} (name : string) (x : A) (ps : list (string * A))
  : list (string * A) :=
  match ps with
  | [] => [(name, x)]
  | (k, y) :: r => if k =? name then (k, x) :: r else (k, y) :: set_prop name x r
  end.

Definition remove_prop {A : Type} (name : string) (ps : list (string * A))
  : list (string * A) :=
  filter (fun p => negb (fst p =? name)) ps.

(** [{ ...target, ...source }]: the properties of [source] defined on
    [target], in order. *)
Definition spread {A : Type} (target source : list (string * A))
  : list (string * A) :=
  fold_left (fun acc p => set_prop (fst p) (snd p) acc) source target.

(** The last segment of a path: the id of the document it names. *)
Definition last_segment (p : string) : string := last (split "/" p) "".

(** Property access [v.name]: a TypeError on [undefined] and [null]; a
    plain object has its properties, an instance of a Firestore class the
    data properties of the class (the methods of instances are not
    modelled); [undefined] for any other name. *)
Definition member (v : value) (name : string) : result value :=
  match v with
  | VUndefined | VNull =>
      Throw (TypeError ("Cannot read properties of undefined or null: " ++ name))
  | VObj ps =>
      match lookup name ps with
      | Some x => Ok x
      | None => Ok VUndefined
      end
  | VTimestamp seconds nanoseconds =>
      Ok (if name =? "seconds" then VNum seconds
          else if name =? "nanoseconds" then VNum nanoseconds
          else VUndefined)
  | VGeoPoint latitude longitude =>
      Ok (if name =? "latitude" then VNum latitude
          else if name =? "longitude" then VNum longitude
          else VUndefined)
  | VDocRef fs p =>
      Ok (if name =? "path" then VStr p
          else if name =? "id" then VStr (last_segment p)
          else if name =? "firestore" then VObj [("projectId", VStr (projectId fs))]
          else VUndefined)
  | _ => Ok VUndefined
  end.

(** Nesting depth, the fuel of [SerializeJSONProperty]. *)
Fixpoint height (v : value) : nat :=
  match v with
  | VArr l => S (fold_right (fun x m => Nat.max (height x) m) O l)
  | VObj ps => S (fold_right (fun p m => Nat.max (height (snd p)) m) O ps)
  | _ => O
  end.

End Js.

(** ** JSON with a replacer and a reviver (ECMAScript 25.5) *)

Module JSON.

Import Str Num Js.

Inductive outcome : Type :=
| OutOfFuel
| Undefined
| Text (j : json).

(** The members of an array and of an object, serialized by [f]: in an
    array [undefined] is [null], in an object a property whose value is
    [undefined] is left out. *)
Section Members.

Variable f : key -> value -> outcome.

Fixpoint SerializeJSONArray (i : nat) (l : list value) : option (list json) :=
  match l with
  | [] => Some []
  | x :: r =>
      match f (KIndex i) x, SerializeJSONArray (S i) r with
      | OutOfFuel, _ | _, None => None
      | Undefined, Some js => Some (JNull :: js)
      | Text j, Some js => Some (j :: js)
      end
  end.

Fixpoint SerializeJSONObject (ps : list (string * value))
  : option (list (string * json)) :=
  match ps with
  | [] => Some []
  | (name, x) :: r =>
      match f (KName name) x, SerializeJSONObject r with
      | OutOfFuel, _ | _, None => None
      | Undefined, Some ms => Some ms
      | Text j, Some ms => Some ((name, j) :: ms)
      end
  end.

End Members.

Section Stringify.

Variable replacer : key -> value -> value.

(** SerializeJSONProperty, with [fuel] bounding the nesting depth.  The
    property's value goes through the replacer, then is serialized by kind;
    a non-finite number is [null], a callable and [undefined] give
    [undefined].  (An instance of a Firestore class that the replacer left
    as it is would be serialized by its own properties, which this
    repository does not define; the replacer of the helpers replaces each
    of them.  The call of a [toJSON] method before the replacer is left
    out: a callable is opaque here, and the values the codec is specified
    on hold none.) *)
Fixpoint SerializeJSONProperty (fuel : nat) (k : key) (v : value) : outcome :=
  match fuel with
  | O => OutOfFuel
  | S fuel' =>
      match replacer k v with
      | VNull => Text JNull
      | VBool b => Text (JBool b)
      | VNum x => Text (if is_finite x then JNum x else JNull)
      | VStr s => Text (JStr s)
      | VArr l =>
          match SerializeJSONArray (SerializeJSONProperty fuel') O l with
          | Some js => Text (JArr js)
          | None => OutOfFuel
          end
      | VObj ps =>
          match SerializeJSONObject (SerializeJSONProperty fuel') ps with
          | Some ms => Text (JObj ms)
          | None => OutOfFuel
          end
      | VUndefined | VFun _ => Undefined
      | VTimestamp _ _ | VGeoPoint _ _ | VDocRef _ _ => Undefined
      end
  end.

(** JSON.stringify(value, replacer): the value is the property [""] of a
    wrapper object. *)
Definition stringify (v : value) : outcome :=
  SerializeJSONProperty (S (height v)) (KName "") v.

End Stringify.

(** The members of an array and of an object, revived by [f]; a member
    revived to [undefined] is deleted from an object. *)
Section Revived.

Variable f : key -> json -> value.

Fixpoint revive_elems (i : nat) (l : list json) : list value :=
  match l with
  | [] => []
  | x :: r => f (KIndex i) x :: revive_elems (S i) r
  end.

Fixpoint revive_members (ms : list (string * json)) : list (string * value) :=
  match ms with
  | [] => []
  | (name, x) :: r =>
      match f (KName name) x with
      | VUndefined => revive_members r
      | y => (name, y) :: revive_members r
      end
  end.

End Revived.

Section Parse.

Variable reviver : key -> value -> value.

(** InternalizeJSONProperty: the members are revived first, then the value
    itself. *)
Fixpoint InternalizeJSONProperty (k : key) (j : json) : value :=
  match j with
  | JNull => reviver k VNull
  | JBool b => reviver k (VBool b)
  | JNum x => reviver k (VNum x)
  | JStr s => reviver k (VStr s)
  | JArr l => reviver k (VArr (revive_elems InternalizeJSONProperty O l))
  | JObj ms => reviver k (VObj (revive_members InternalizeJSONProperty ms))
  end.

(** JSON.parse(text, reviver), on what the text denotes. *)
Definition parse (j : json) : value := InternalizeJSONProperty (KName "") j.

End Parse.

End JSON.

(** ** src/helpers.ts *)

Module Helpers.

Import Str Num Js.

(** [a && b]: [a] when it is falsy, else [b]. *)
Definition and_then (a b : result value) : result value :=
  match a with
  | Ok x => if truthy x then b else Ok x
  | Throw e => Throw e
  end.

(** Whether a value of any shape has what a collection handle has. *)
Definition isFirestoreCollection (maybeCollection : value) : result value :=
  and_then
    (and_then
       (and_then (member maybeCollection "id") (member maybeCollection "path"))
       (member maybeCollection "firestore"))
    (member maybeCollection "doc").

(** A document: its fields, among them the library fields [id] and
    [collection]. *)
Definition document : Type := list (string * value).

(** A document snapshot, as far as the converter reads it: [snap.id],
    [snap.ref.parent.id] and [snap.data()]. *)
Record QueryDocumentSnapshot : Type := {
  snap_id : string;
  snap_parent_id : string;
  snap_data : document
}.

(** [toFirestore: ({ id, collection, ...data }) => data] *)
Definition toFirestore (doc : document) : document :=
  remove_prop "collection" (remove_prop "id" doc).

(** [fromFirestore: snap =>
      ({ id: snap.id, collection: snap.ref.parent.id, ...snap.data() })] *)
Definition fromFirestore (snap : QueryDocumentSnapshot) : document :=
  spread [("id", VStr (snap_id snap)); ("collection", VStr (snap_parent_id snap))]
         (snap_data snap).

(** [firestore.FirestoreDataConverter<TData>] *)
Record FirestoreDataConverter : Type := {
  converter_toFirestore : document -> document;
  converter_fromFirestore : QueryDocumentSnapshot -> document
}.

Definition FirestoreConverter : FirestoreDataConverter :=
  {| converter_toFirestore := toFirestore;
     converter_fromFirestore := fromFirestore |}.

(** A collection handle, as far as the reviver reads it. *)
Record CollectionReference : Type := {
  id : string;
  path : string;
  firestore : Firestore
}.

(** [collection.firestore.doc(documentPath)]: the reference to the document
    at the path, for that client, when the path is one the library takes
    ([Admin.firestore_doc] has the check). *)
Definition doc (fs : Firestore) (documentPath : string) : value :=
  VDocRef fs documentPath.

(** [/^\$\$(Timestamp|GeoPoint|DocumentReference)\$\$:/.test(s)] *)
Definition symbolMatch (s : string) : bool :=
  prefix "$$Timestamp$$:" s
  || prefix "$$GeoPoint$$:" s
  || prefix "$$DocumentReference$$:" s.

(** [split[i]], printed as an argument: a missing piece is [undefined].
    When the pattern matched there is a second piece. *)
Definition piece (sp : list string) (i : nat) : string :=
  arg_string (nth_error sp i).

(** [reviverFactory(collection)], where the constructors take their
    arguments: the value the reviver returns unless a constructor throws
    ([Admin.reviverFactory] has the exceptions). *)
Definition reviverFactory (collection : CollectionReference)
  (k : key) (v : value) : value :=
  match v with
  | VStr s =>
      if symbolMatch s then
        let sp := split ":" s in
        match sp with
        | tag :: _ =>
            if tag =? "$$Timestamp$$" then
              VTimestamp (parseInt (piece sp 1)) (parseInt (piece sp 2))
            else if tag =? "$$DocumentReference$$" then
              doc (firestore collection) (piece sp 1)
            else if tag =? "$$GeoPoint$$" then
              VGeoPoint (parseFloat (piece sp 1)) (parseFloat (piece sp 2))
            else v
        | [] => v
        end
      else v
  | _ => v
  end.

Definition replacer (k : key) (v : value) : value :=
  match v with
  | VTimestamp seconds nanoseconds =>
      VStr ("$$Timestamp$$:" ++ toString seconds ++ ":" ++ toString nanoseconds)
  | VDocRef _ p =>
      VStr ("$$DocumentReference$$:" ++ p)
  | VGeoPoint latitude longitude =>
      VStr ("$$GeoPoint$$:" ++ toString latitude ++ ":" ++ toString longitude)
  | _ => v
  end.

End Helpers.

(** ** The codec, as the specification words it *)

Module CodecSpec.

Import Str Num Js Helpers.

(** [encode] and [decode]: JSON.stringify with the replacer, and
    JSON.parse with the reviver of the collection, on what the text
    denotes. *)
Definition encode (v : value) : JSON.outcome := JSON.stringify replacer v.

Definition decode (collection : CollectionReference) (j : json) : value :=
  JSON.parse (reviverFactory collection) j.

(** The closed set of Tagged Value kinds. *)
Inductive kind : Type :=
| Timestamp
| GeoPoint
| DocumentReference.

(** The kind whose sentinel [$$<Kind>$$:] the string starts with. *)
Definition sentinel_kind (s : string) : option kind :=
  if prefix "$$Timestamp$$:" s then Some Timestamp
  else if prefix "$$GeoPoint$$:" s then Some GeoPoint
  else if prefix "$$DocumentReference$$:" s then Some DocumentReference
  else None.

Definition kind_of (v : value) : option kind :=
  match v with
  | VTimestamp _ _ => Some Timestamp
  | VGeoPoint _ _ => Some GeoPoint
  | VDocRef _ _ => Some DocumentReference
  | _ => None
  end.

(** The Tagged Value of the given kind made of the colon-separated fields
    of [s], for the store of [collection]. *)
Definition reconstruct (collection : CollectionReference) (kd : kind)
  (s : string) : value :=
  let sp := split ":" s in
  match kd with
  | Timestamp => VTimestamp (parseInt (piece sp 1)) (parseInt (piece sp 2))
  | GeoPoint => VGeoPoint (parseFloat (piece sp 1)) (parseFloat (piece sp 2))
  | DocumentReference => VDocRef (firestore collection) (piece sp 1)
  end.

(** Decoding one value, by the specification: a string that starts with a
    sentinel becomes the Tagged Value of that kind, anything else is left
    as it is. *)
Definition revive_by_kind (collection : CollectionReference) (v : value) : value :=
  match v with
  | VStr s =>
      match sentinel_kind s with
      | Some kd => reconstruct collection kd s
      | None => v
      end
  | _ => v
  end.

(** The supported value shapes: JSON-native values (null, booleans, finite
    numbers, strings, arrays and objects of supported values), Timestamps
    (whole seconds and nanoseconds), GeoPoints and DocumentReferences. *)
Fixpoint supported (v : value) : bool :=
  match v with
  | VNull | VBool _ | VStr _ => true
  | VNum x => is_finite x && wf x
  | VArr l => forallb supported l
  | VObj ps => forallb (fun p => supported (snd p)) ps
  | VTimestamp seconds nanoseconds =>
      is_plain_integer seconds && is_plain_integer nanoseconds
  | VGeoPoint latitude longitude => wf latitude && wf longitude
  | VDocRef _ _ => true
  | VUndefined | VFun _ => false
  end.

Definition same_firestore (a b : Firestore) : bool :=
  projectId a =? projectId b.

(** Values that the sentinel strings represent without ambiguity for the
    store of [collection]: no string starts with a sentinel, every
    reference belongs to the collection's Firestore client and has no
    colon in its path. *)
Fixpoint unambiguous (collection : CollectionReference) (v : value) : bool :=
  match v with
  | VStr s => negb (symbolMatch s)
  | VArr l => forallb (unambiguous collection) l
  | VObj ps => forallb (fun p => unambiguous collection (snd p)) ps
  | VDocRef fs p => same_firestore fs (firestore collection) && negb (has_char ":" p)
  | _ => true
  end.

(** The value survives the round trip as a property value, under any key
    and with any fuel above its height. *)
Definition roundtrips (coll : CollectionReference) (v : value) : Prop :=
  forall fuel k k', (height v < fuel)%nat ->
  exists j, JSON.SerializeJSONProperty replacer fuel k v = JSON.Text j
            /\ JSON.InternalizeJSONProperty (reviverFactory coll) k' j = v.

(** Sample data. *)
Definition demo : Firestore := {| projectId := "demo" |}.

Definition other : Firestore := {| projectId := "other" |}.

Definition users : CollectionReference :=
  {| id := "users"; path := "users"; firestore := demo |}.

(** The document of the specification's scenario, with a geo-point and a
    reference added. *)
Definition ada : value :=
  VObj [("id", VStr "42"); ("collection", VStr "users"); ("name", VStr "Ada");
        ("lastSeen", VTimestamp (Finite false "169" 10) Zero);
        ("home", VGeoPoint (Finite false "593293" 2) (Finite true "15" (-6)));
        ("friend", VDocRef demo "users/7");
        ("visits", VArr [VNum (Finite false "3" 1); VNull; VBool true])].

Definition with_sentinel_string : value :=
  VObj [("note", VStr "$$Timestamp$$:1:2")].

Definition with_colon_reference : value :=
  VObj [("owner", VDocRef demo "users/a:b")].

Definition with_foreign_reference : value :=
  VObj [("owner", VDocRef other "users/7")].

End CodecSpec.

(** ** The reviver over the constructors of firebase-admin

    The reviver builds its instances with [new firestore.Timestamp],
    [new firestore.GeoPoint] and [collection.firestore.doc].  Each of them
    checks its arguments and throws on those it rejects, and the reviver
    has no handler: the exception leaves the reviver and JSON.parse.  What
    the constructors accept is the library's, not this repository's: it is
    a parameter here, with the checks of firebase-admin 10 as one
    instance. *)

Module Admin.

Import Str Num Js.

Class Library : Type := {
  (** the arguments [new firestore.Timestamp(seconds, nanoseconds)] takes *)
  valid_timestamp : number -> number -> bool;
  (** the arguments [new firestore.GeoPoint(latitude, longitude)] takes *)
  valid_geopoint : number -> number -> bool;
  (** the path of the reference [firestore.doc(documentPath)] returns, when
      it takes the argument *)
  document_path : string -> option string
}.

Section Reviver.

Context `{Library}.

(** [new firestore.Timestamp(seconds, nanoseconds)] *)
Definition new_Timestamp (seconds nanoseconds : number) : result value :=
  if valid_timestamp seconds nanoseconds
  then Ok (VTimestamp seconds nanoseconds)
  else Throw (Error "Timestamp: argument is not valid").

(** [new firestore.GeoPoint(latitude, longitude)] *)
Definition new_GeoPoint (latitude longitude : number) : result value :=
  if valid_geopoint latitude longitude
  then Ok (VGeoPoint latitude longitude)
  else Throw (Error "GeoPoint: argument is not valid").

(** [firestore.doc(documentPath)] *)
Definition firestore_doc (fs : Firestore) (documentPath : string) : result value :=
  match document_path documentPath with
  | Some p => Ok (VDocRef fs p)
  | None => Throw (Error "documentPath: argument is not valid")
  end.

(** [reviverFactory(collection)], with the constructors that throw. *)
Definition reviverFactory (collection : Helpers.CollectionReference)
  (k : key) (v : value) : result value :=
  match v with
  | VStr s =>
      if Helpers.symbolMatch s then
        let sp := split ":" s in
        match sp with
        | tag :: _ =>
            if tag =? "$$Timestamp$$" then
              new_Timestamp (parseInt (Helpers.piece sp 1))
                            (parseInt (Helpers.piece sp 2))
            else if tag =? "$$DocumentReference$$" then
              firestore_doc (Helpers.firestore collection) (Helpers.piece sp 1)
            else if tag =? "$$GeoPoint$$" then
              new_GeoPoint (parseFloat (Helpers.piece sp 1))
                           (parseFloat (Helpers.piece sp 2))
            else Ok v
        | [] => Ok v
        end
      else Ok v
  | _ => Ok v
  end.

(** The instance, built again by the constructor of its class; any other
    value as it is. *)
Definition construct (v : value) : result value :=
  match v with
  | VTimestamp seconds nanoseconds => new_Timestamp seconds nanoseconds
  | VGeoPoint latitude longitude => new_GeoPoint latitude longitude
  | VDocRef fs p => firestore_doc fs p
  | _ => Ok v
  end.

(** Every instance in the value is one its constructor returns: it has
    fields the constructor accepts, and a reference has the path
    [firestore.doc] gives it. *)
Fixpoint accepted (v : value) : bool :=
  match v with
  | VTimestamp seconds nanoseconds => valid_timestamp seconds nanoseconds
  | VGeoPoint latitude longitude => valid_geopoint latitude longitude
  | VDocRef _ p =>
      match document_path p with
      | Some q => q =? p
      | None => false
      end
  | VArr l => forallb accepted l
  | VObj ps => forallb (fun p => accepted (snd p)) ps
  | _ => true
  end.

End Reviver.

(** JSON.parse with a reviver that may throw: the first exception, in the
    order the properties are visited, ends the parse. *)
Section Revived.

Variable f : key -> json -> result value.

Fixpoint revive_elems (i : nat) (l : list json) : result (list value) :=
  match l with
  | [] => Ok []
  | x :: r =>
      match f (KIndex i) x with
      | Ok y =>
          match revive_elems (S i) r with
          | Ok ys => Ok (y :: ys)
          | Throw e => Throw e
          end
      | Throw e => Throw e
      end
  end.

Fixpoint revive_members (ms : list (string * json))
  : result (list (string * value)) :=
  match ms with
  | [] => Ok []
  | (name, x) :: r =>
      match f (KName name) x with
      | Ok y =>
          match revive_members r with
          | Ok ys =>
              Ok (match y with
                  | VUndefined => ys
                  | _ => (name, y) :: ys
                  end)
          | Throw e => Throw e
          end
      | Throw e => Throw e
      end
  end.

End Revived.

Section Parse.

Variable reviver : key -> value -> result value.

Fixpoint InternalizeJSONProperty (k : key) (j : json) : result value :=
  match j with
  | JNull => reviver k VNull
  | JBool b => reviver k (VBool b)
  | JNum x => reviver k (VNum x)
  | JStr s => reviver k (VStr s)
  | JArr l =>
      match revive_elems InternalizeJSONProperty O l with
      | Ok vs => reviver k (VArr vs)
      | Throw e => Throw e
      end
  | JObj ms =>
      match revive_members InternalizeJSONProperty ms with
      | Ok ps => reviver k (VObj ps)
      | Throw e => Throw e
      end
  end.

Definition parse (j : json) : result value :=
  InternalizeJSONProperty (KName "") j.

End Parse.

(** [decode]: JSON.parse with the reviver of the collection, on what the
    text denotes. *)
Definition decode `{Library} (collection : Helpers.CollectionReference)
  (j : json) : result value :=
  parse (reviverFactory collection) j.

(** *** The checks of firebase-admin 10 (@google-cloud/firestore)

    [Timestamp]: both arguments are integers, the seconds from year 1 to
    year 9999, the nanoseconds below a second.  [GeoPoint]: both arguments
    are numbers other than NaN, the latitude within 90 degrees and the
    longitude within 180.  [doc]: the path is not empty, has no empty
    segment inside, and names a document: an even number of segments; the
    reference has the segments joined by slashes as its path. *)

(** The integer a number is, if it is one. *)
Definition to_Z (x : number) : option Z :=
  match x with
  | Zero => Some 0
  | Finite neg ds pt =>
      let k := Z.of_nat (String.length ds) in
      if (k <=? pt)%Z then
        let m := (Z.of_N (undec ds) * 10 ^ (pt - k))%Z in
        Some (if neg then (- m)%Z else m)
      else None
  | _ => None
  end.

Definition integer_between (lo hi : Z) (x : number) : bool :=
  match to_Z x with
  | Some z => (lo <=? z)%Z && (z <=? hi)%Z
  | None => false
  end.

(** [-bound <= x <= bound], for a number other than NaN. *)
Definition magnitude_within (bound : Z) (x : number) : bool :=
  match x with
  | NaN | Infinity _ => false
  | Zero => true
  | Finite _ ds pt =>
      let k := Z.of_nat (String.length ds) in
      let m := Z.of_N (undec ds) in
      if (k <=? pt)%Z then (m * 10 ^ (pt - k) <=? bound)%Z
      else (m <=? bound * 10 ^ (k - pt))%Z
  end.

Fixpoint has_double_slash (s : string) : bool :=
  match s with
  | String a r =>
      match r with
      | String b _ => (Ascii.eqb a "/" && Ascii.eqb b "/") || has_double_slash r
      | "" => false
      end
  | "" => false
  end.

(** The segments of a path: a slash at either end is allowed. *)
Definition segments (p : string) : list string :=
  filter (fun seg => negb (seg =? "")) (split "/" p).

Definition is_document_path (p : string) : bool :=
  negb (p =? "") && negb (has_double_slash p)
  && match segments p with
     | [] => false
     | segs => Nat.even (List.length segs)
     end.

Definition firebase_admin : Library :=
  {| valid_timestamp := fun seconds nanoseconds =>
       integer_between (-62135596800) 253402300799 seconds
       && integer_between 0 999999999 nanoseconds;
     valid_geopoint := fun latitude longitude =>
       magnitude_within 90 latitude && magnitude_within 180 longitude;
     document_path := fun p =>
       if is_document_path p then Some (String.concat "/" (segments p))
       else None |}.

(** Sample data: user strings that start with a sentinel, and an entry
    holding one. *)
Definition greeting : string := "$$Timestamp$$:hello".

Definition mention : string := "$$DocumentReference$$:users".

Definition entry_with_greeting : json :=
  JObj [("id", JStr "42"); ("note", JStr greeting)].

End Admin.

(** ** src/datasource.ts

    The methods are asynchronous; each [await] is a sequencing point and a
    rejection propagates as an exception.  They run in a monad over the
    state of the document store, the state of the cache tiers and the
    trace of the effects so far. *)

Module DataSource.

Import Str Num Js Helpers.

(** [DType | DType[]], the argument of [primeLoader]. *)
Inductive prime_item : Type :=
| One (doc : document)
| Many (docs : list document).

Inductive store_op : Type :=
| Add (data : document)
| SetDoc (documentPath : value) (data : document) (merge : bool)
| GetDoc (documentPath : value)
| DeleteDoc (documentPath : value)
| RunQuery (query : value).

Inductive cache_call : Type :=
| FindOneById (id : string) (ttl : option number)
| FindManyByIds (ids : list string) (ttl : option number)
| DeleteFromCacheById (id : string)
| PrimeLoader (item : prime_item) (ttl : option number).

(** The messages of [logger.debug], by call site, with what they
    interpolate. *)
Inductive log_message : Type :=
| Started
| FindManyByQueryComplete (rows : nat) (readTime : value)
| CreatedId (id : value)
| DeletingId (id : string)
| UpdatingDocId (id : value)
| UpdatingPartialDocId (id : string).

Inductive event : Type :=
| EStore (op : store_op)
| ECache (c : cache_call)
| ELog (m : log_message).

(** A query snapshot: [qSnap.docs] and [qSnap.readTime]; [qSnap.size] is
    the number of documents. *)
Record QuerySnapshot : Type := {
  docs : list QueryDocumentSnapshot;
  readTime : value
}.

(** The document store behind a collection handle: the operations and the
    query entry point the data source uses, and the call that attaches the
    converter. *)
Class DocumentStore (S : Type) : Type := {
  (** [collection.add(data)]: the id of the new document. *)
  store_add : value -> document -> S -> result string * S;
  (** [collection.doc(documentPath).set(data, { merge })] *)
  store_set : value -> value -> document -> bool -> S -> result value * S;
  (** [collection.doc(documentPath).get()]: the snapshot, if the document
      exists. *)
  store_get : value -> value -> S -> result (option QueryDocumentSnapshot) * S;
  (** [collection.doc(documentPath).delete()] *)
  store_delete : value -> value -> S -> result value * S;
  (** [query.get()] *)
  store_query : value -> S -> result QuerySnapshot * S;
  (** [collection.withConverter(converter)], for a value that has such a
      method: the handle the call returns, which reads and writes through
      the converter, or the exception it throws. *)
  store_with_converter : value -> result value
}.

Record FirestoreDataSourceOptions : Type := {
  logger : option string
}.

Section Model.

Context {S C : Type} `{DocumentStore S}.

Record world : Type := {
  store : S;
  cache_tiers : C;
  trace : list event
}.

Definition M (A : Type) : Type := world -> result A * world.

Definition ret {A : Type} (a : A) : M A := fun w => (Ok a, w).

Definition bind {A B : Type} (m : M A) (f : A -> M B) : M B :=
  fun w =>
    match m w with
    | (Ok a, w') => f a w'
    | (Throw e, w') => (Throw e, w')
    end.

Definition throw {A : Type} (e : error) : M A := fun w => (Throw e, w).

Definition emit (ev : event) : M unit :=
  fun w =>
    (Ok tt, {| store := store w; cache_tiers := cache_tiers w;
               trace := (trace w ++ [ev])%list |}).

(** What a caching method may do: read and write the store and the cache
    tiers. *)
Definition action (A : Type) : Type := S * C -> result A * (S * C).

Definition run_store {A : Type} (f : S -> result A * S) : M A :=
  fun w =>
    let (r, s) := f (store w) in
    (r, {| store := s; cache_tiers := cache_tiers w; trace := trace w |}).

Definition run_action {A : Type} (h : action A) : M A :=
  fun w =>
    let (r, sc) := h (store w, cache_tiers w) in
    (r, {| store := fst sc; cache_tiers := snd sc; trace := trace w |}).

(** A store operation and a call of a caching method, recorded in the
    trace when they start. *)
Definition on_store {A : Type} (op : store_op) (f : S -> result A * S) : M A :=
  bind (emit (EStore op)) (fun _ => run_store f).

Definition call {A : Type} (c : cache_call) (h : action A) : M A :=
  bind (emit (ECache c)) (fun _ => run_action h).

Definition of_result {A : Type} (r : result A) : M A := fun w => (r, w).

(** [options?.logger?.debug(message)] *)
Definition debug (options : FirestoreDataSourceOptions) (m : log_message) : M unit :=
  match logger options with
  | Some _ => emit (ELog m)
  | None => ret tt
  end.

(** [const placeholderHandler = () => { throw new Error(...) }] *)
Definition placeholderHandler {A : Type} : action A :=
  fun sc => (Throw (Error "DataSource not initialized"), sc).

(** Modelled from the spec: [CachedMethods<TData>], which [src/cache.ts]
    declares and which is not among the sources: the four operations of the
    Caching Facade of section 4.4, with the loader, the cache and the key
    prefix.  The class implements it field by field. *)
Record CachedMethods : Type := {
  m_findOneById : string -> option number -> action (option document);
  m_findManyByIds : list string -> option number -> action (list (option document));
  m_deleteFromCacheById : string -> action unit;
  m_primeLoader : prime_item -> option number -> action unit;
  m_dataLoader : value;
  m_cache : value;
  m_cachePrefix : value
}.

Record FirestoreDataSource : Type := {
  collection : value;
  context : value;
  options : FirestoreDataSourceOptions;
  findOneById : string -> option number -> action (option document);
  findManyByIds : list string -> option number -> action (list (option document));
  deleteFromCacheById : string -> action unit;
  primeLoader : prime_item -> option number -> action unit;
  dataLoader : value;
  cache : value;
  cachePrefix : value;
  reviver : action value;
  replacer : action value
}.

(** [dSnap.data()]: the converted document, [undefined] when the document
    does not exist. *)
Definition data (dSnap : option QueryDocumentSnapshot) : option document :=
  option_map fromFirestore dSnap.

(** [data.id] *)
Definition field (name : string) (doc : document) : value :=
  match lookup name doc with
  | Some x => x
  | None => VUndefined
  end.

(** [if (result) await this.primeLoader(result, ttl)] *)
Definition prime_result (this : FirestoreDataSource) (result : option document)
  (ttl : option number) : M unit :=
  match result with
  | Some doc => call (PrimeLoader (One doc) ttl) (primeLoader this (One doc) ttl)
  | None => ret tt
  end.

Definition findManyByQuery (this : FirestoreDataSource)
  (queryFunction : value -> value) (ttl : option number) : M (list document) :=
  let query := queryFunction (collection this) in
  bind (on_store (RunQuery query) (store_query query)) (fun qSnap =>
  let results := map fromFirestore (docs qSnap) in
  bind (if truthy (dataLoader this)  (* [&& results]: an array is truthy *)
        then call (PrimeLoader (Many results) ttl)
                  (primeLoader this (Many results) ttl)
        else ret tt) (fun _ =>
  bind (debug (options this)
          (FindManyByQueryComplete (List.length (docs qSnap)) (readTime qSnap)))
       (fun _ =>
  ret results))).

Definition updateOne (this : FirestoreDataSource) (doc : document)
  : M (option document) :=
  let id := field "id" doc in
  bind (debug (options this) (UpdatingDocId id)) (fun _ =>
  bind (on_store (SetDoc id (toFirestore doc) false)
          (store_set (collection this) id (toFirestore doc) false)) (fun _ =>
  bind (on_store (GetDoc id) (store_get (collection this) id)) (fun dSnap =>
  let result := data dSnap in
  bind (prime_result this result None) (fun _ =>
  ret result)))).

(** [result?.id ?? ''] *)
Definition created_id (result : option document) : value :=
  match result with
  | Some doc =>
      match field "id" doc with
      | VUndefined | VNull => VStr ""
      | x => x
      end
  | None => VStr ""
  end.

Definition createOne (this : FirestoreDataSource) (newDoc : document)
  (ttl : option number) : M (option document) :=
  if has_prop "id" newDoc then updateOne this newDoc
  else
    bind (on_store (Add (toFirestore newDoc))
            (store_add (collection this) (toFirestore newDoc))) (fun dRef =>
    bind (on_store (GetDoc (VStr dRef))
            (store_get (collection this) (VStr dRef))) (fun dSnap =>
    let result := data dSnap in
    bind (prime_result this result ttl) (fun _ =>
    bind (debug (options this) (CreatedId (created_id result))) (fun _ =>
    ret result)))).

Definition deleteOne (this : FirestoreDataSource) (id : string) : M value :=
  bind (debug (options this) (DeletingId id)) (fun _ =>
  bind (on_store (DeleteDoc (VStr id))
          (store_delete (collection this) (VStr id))) (fun response =>
  bind (call (DeleteFromCacheById id) (deleteFromCacheById this id)) (fun _ =>
  ret response))).

Definition updateOnePartial (this : FirestoreDataSource) (id : string)
  (doc : document) : M (option document) :=
  bind (debug (options this) (UpdatingPartialDocId id)) (fun _ =>
  bind (on_store (SetDoc (VStr id) (toFirestore doc) true)
          (store_set (collection this) (VStr id) (toFirestore doc) true)) (fun _ =>
  bind (on_store (GetDoc (VStr id)) (store_get (collection this) (VStr id)))
       (fun dSnap =>
  let result := data dSnap in
  bind (prime_result this result None) (fun _ =>
  ret result)))).

(** [collection.withConverter(FirestoreConverter())]: what the method of
    the value returns or throws; a TypeError when the value has no such
    method.  The store operations above apply the converter to what they
    write and read, as the returned handle does. *)
Definition withConverter (collection : value) : result value :=
  match member collection "withConverter" with
  | Ok (VFun _) => store_with_converter collection
  | Ok _ => Throw (TypeError "collection.withConverter is not a function")
  | Throw e => Throw e
  end.

(** The object after the field initializers and the assignments of the
    constructor. *)
Definition constructed (collection : value) (options : FirestoreDataSourceOptions)
  : FirestoreDataSource :=
  {| collection := collection;
     context := VUndefined;
     options := options;
     findOneById := fun _ _ => placeholderHandler;
     findManyByIds := fun _ _ => placeholderHandler;
     deleteFromCacheById := fun _ => placeholderHandler;
     primeLoader := fun _ _ => placeholderHandler;
     dataLoader := VUndefined;
     cache := VUndefined;
     cachePrefix := VUndefined;
     reviver := placeholderHandler;
     replacer := placeholderHandler |}.

Definition constructor (collection : value) (options : FirestoreDataSourceOptions)
  : M FirestoreDataSource :=
  bind (debug options Started) (fun _ =>
  bind (of_result (isFirestoreCollection collection)) (fun ok =>
  if negb (truthy ok) then
    throw (Error "FirestoreDataSource must be created with a Firestore collection (from @google-cloud/firestore)")
  else
    bind (of_result (withConverter collection)) (fun converted =>
    ret (constructed converted options)))).

(** [cache ?? new InMemoryLRUCache()] *)
Definition or_default (cache fresh : value) : value :=
  match cache with
  | VUndefined | VNull => fresh
  | _ => cache
  end.

(** [Object.assign(this, methods)] *)
Definition assign (this : FirestoreDataSource) (methods : CachedMethods)
  : FirestoreDataSource :=
  {| collection := collection this;
     context := context this;
     options := options this;
     findOneById := m_findOneById methods;
     findManyByIds := m_findManyByIds methods;
     deleteFromCacheById := m_deleteFromCacheById methods;
     primeLoader := m_primeLoader methods;
     dataLoader := m_dataLoader methods;
     cache := m_cache methods;
     cachePrefix := m_cachePrefix methods;
     reviver := reviver this;
     replacer := replacer this |}.

(** [createCachingMethods] of [src/cache.ts], which is not among the
    sources: whatever builds the caching methods for a collection, a
    backing cache and the options. *)
Variable createCachingMethods :
  value -> value -> FirestoreDataSourceOptions -> CachedMethods.

(** [new InMemoryLRUCache()] of apollo-server-caching. *)
Variable InMemoryLRUCache : value.

Definition with_context (this : FirestoreDataSource) (ctx : value)
  : FirestoreDataSource :=
  {| collection := collection this;
     context := ctx;
     options := options this;
     findOneById := findOneById this;
     findManyByIds := findManyByIds this;
     deleteFromCacheById := deleteFromCacheById this;
     primeLoader := primeLoader this;
     dataLoader := dataLoader this;
     cache := cache this;
     cachePrefix := cachePrefix this;
     reviver := reviver this;
     replacer := replacer this |}.

Definition initialize (this : FirestoreDataSource) (ctx cache : value)
  : FirestoreDataSource :=
  let this := with_context this ctx in
  let methods :=
    createCachingMethods (collection this)
      (or_default cache InMemoryLRUCache) (options this) in
  assign this methods.

End Model.

(** *** What the operations are to do, by the specification *)

Section Spec.

Context {S C : Type} `{DocumentStore S}.

(** The effects of a trace: everything but the log messages. *)
Definition is_effect (ev : event) : bool :=
  match ev with
  | ELog _ => false
  | _ => true
  end.

Definition effects (tr : list event) : list event := filter is_effect tr.

(** The run [x], started in [w], ended with the result [r], the store [s]
    and the cache tiers [c], after the effects [evs] in that order. *)
Definition ends_with {A : Type} (x : result A * @world S C) (w : @world S C)
  (r : result A) (s : S) (c : C) (evs : list event) : Prop :=
  fst x = r /\ store (snd x) = s /\ cache_tiers (snd x) = c
  /\ effects (trace (snd x)) = (effects (trace w) ++ evs)%list.

(** Delete from the store first, then from the cache tiers: the run deletes
    the document; if the store fails so does the run, else it calls
    [deleteFromCacheById] on the id and returns the response of the
    store. *)
Definition deleted_then_invalidated (this : @FirestoreDataSource S C) (id : string)
  (w : @world S C) (x : result value * @world S C) : Prop :=
  match store_delete (collection this) (VStr id) (store w) with
  | (Throw e, s1) =>
      ends_with x w (Throw e) s1 (cache_tiers w) [EStore (DeleteDoc (VStr id))]
  | (Ok response, s1) =>
      let (r, sc) := deleteFromCacheById this id (s1, cache_tiers w) in
      ends_with x w
        (match r with Ok _ => Ok response | Throw e => Throw e end)
        (fst sc) (snd sc)
        [EStore (DeleteDoc (VStr id)); ECache (DeleteFromCacheById id)]
  end.

(** Write to the store first, then prime: the run does the write [op]; it
    reads the written document back at [path]; if the store returned a
    document it calls [primeLoader] on it with [ttl] and returns it. *)
Definition written_then_primed {X : Type} (this : @FirestoreDataSource S C)
  (op : store_op) (write : S -> result X * S) (path : X -> value)
  (ttl : option number) (w : @world S C)
  (x : result (option document) * @world S C) : Prop :=
  match write (store w) with
  | (Throw e, s1) => ends_with x w (Throw e) s1 (cache_tiers w) [EStore op]
  | (Ok a, s1) =>
      match store_get (collection this) (path a) s1 with
      | (Throw e, s2) =>
          ends_with x w (Throw e) s2 (cache_tiers w)
            [EStore op; EStore (GetDoc (path a))]
      | (Ok None, s2) =>
          ends_with x w (Ok None) s2 (cache_tiers w)
            [EStore op; EStore (GetDoc (path a))]
      | (Ok (Some snap), s2) =>
          let doc := fromFirestore snap in
          let (r, sc) := primeLoader this (One doc) ttl (s2, cache_tiers w) in
          ends_with x w
            (match r with Ok _ => Ok (Some doc) | Throw e => Throw e end)
            (fst sc) (snd sc)
            [EStore op; EStore (GetDoc (path a));
             ECache (PrimeLoader (One doc) ttl)]
      end
  end.

(** Query the store, then prime if there is a loader: the run executes the
    query; with a [dataLoader] it calls [primeLoader] on the documents of
    the snapshot with [ttl]; it returns those documents. *)
Definition queried_then_primed (this : @FirestoreDataSource S C)
  (query : value) (ttl : option number) (w : @world S C)
  (x : result (list document) * @world S C) : Prop :=
  match store_query query (store w) with
  | (Throw e, s1) =>
      ends_with x w (Throw e) s1 (cache_tiers w) [EStore (RunQuery query)]
  | (Ok qSnap, s1) =>
      let results := map fromFirestore (docs qSnap) in
      if truthy (dataLoader this) then
        let (r, sc) := primeLoader this (Many results) ttl (s1, cache_tiers w) in
        ends_with x w
          (match r with Ok _ => Ok results | Throw e => Throw e end)
          (fst sc) (snd sc)
          [EStore (RunQuery query); ECache (PrimeLoader (Many results) ttl)]
      else
        ends_with x w (Ok results) s1 (cache_tiers w) [EStore (RunQuery query)]
  end.

(** A value that lacks one of the four capabilities of a collection
    handle: reading it fails, or what is read is falsy. *)
Definition lacks_capability (maybeCollection : value) : bool :=
  existsb
    (fun name =>
       match member maybeCollection name with
       | Ok x => negb (truthy x)
       | Throw _ => true
       end)
    ["id"; "path"; "firestore"; "doc"].

End Spec.

End DataSource.

(** ** An in-memory store and a one-tier cache, for the examples *)

Module Sample.

Import Str Num Js Helpers DataSource.

(** The documents of one collection by id, and the counter of the ids
    [collection.add] gives out. *)
Record mem : Type := {
  documents : list (string * document);
  next_id : N
}.

Definition parent_of (collection : value) : string :=
  match member collection "id" with
  | Ok (VStr s) => s
  | _ => ""
  end.

Definition write_result : value := VObj [("writeTime", VNull)].

Definition snapshot (collection : value) (id : string) (d : document)
  : QueryDocumentSnapshot :=
  {| snap_id := id; snap_parent_id := parent_of collection; snap_data := d |}.

(** A document path is a string that is not empty. *)
Definition with_path {A : Type} (documentPath : value) (s : mem)
  (f : string -> result A * mem) : result A * mem :=
  match documentPath with
  | VStr id =>
      if id =? ""
      then (Throw (StoreError "documentPath must be a non-empty string"), s)
      else f id
  | _ => (Throw (StoreError "documentPath must be a non-empty string"), s)
  end.

#[export] Instance mem_store : DocumentStore mem := {|
  store_add := fun _ d s =>
    let id := "auto" ++ dec (next_id s) in
    (Ok id, {| documents := set_prop id d (documents s);
               next_id := N.succ (next_id s) |});
  store_set := fun _ p d merge s =>
    with_path p s (fun id =>
      let old := match lookup id (documents s) with
                 | Some o => o
                 | None => []
                 end in
      (Ok write_result,
       {| documents := set_prop id (if merge then spread old d else d) (documents s);
          next_id := next_id s |}));
  store_get := fun c p s =>
    with_path p s (fun id =>
      (Ok (option_map (snapshot c id) (lookup id (documents s))), s));
  store_delete := fun _ p s =>
    with_path p s (fun id =>
      (Ok write_result,
       {| documents := remove_prop id (documents s); next_id := next_id s |}));
  store_query := fun q s =>
    (Ok {| docs := map (fun e => snapshot q (fst e) (snd e)) (documents s);
           readTime := VTimestamp (Finite false "169" 10) Zero |}, s);
  store_with_converter := fun c => Ok c
|}.

(** One cache tier: the primed documents by id. *)
Definition tier : Type := list (string * document).

Definition doc_id (d : document) : string :=
  match lookup "id" d with
  | Some (VStr s) => s
  | _ => ""
  end.

Definition prime_all (ds : list document) (c : tier) : tier :=
  fold_left (fun acc d => set_prop (doc_id d) d acc) ds c.

Definition find_one (collection : value) (id : string)
  : @action mem tier (option document) :=
  fun sc =>
    match lookup id (snd sc) with
    | Some d => (Ok (Some d), sc)
    | None =>
        match store_get collection (VStr id) (fst sc) with
        | (Ok (Some snap), s) =>
            (Ok (Some (fromFirestore snap)),
             (s, set_prop id (fromFirestore snap) (snd sc)))
        | (Ok None, s) => (Ok None, (s, snd sc))
        | (Throw e, s) => (Throw e, (s, snd sc))
        end
    end.

Fixpoint find_many (collection : value) (ids : list string)
  : @action mem tier (list (option document)) :=
  fun sc =>
    match ids with
    | [] => (Ok [], sc)
    | id :: r =>
        match find_one collection id sc with
        | (Ok d, sc1) =>
            match find_many collection r sc1 with
            | (Ok l, sc2) => (Ok (d :: l), sc2)
            | (Throw e, sc2) => (Throw e, sc2)
            end
        | (Throw e, sc1) => (Throw e, sc1)
        end
    end.

(** A Caching Facade over the in-memory store. *)
Definition caching_methods (collection cache : value)
  (options : FirestoreDataSourceOptions) : @CachedMethods mem tier :=
  {| m_findOneById := fun id _ => find_one collection id;
     m_findManyByIds := fun ids _ => find_many collection ids;
     m_deleteFromCacheById := fun id sc => (Ok tt, (fst sc, remove_prop id (snd sc)));
     m_primeLoader := fun item _ sc =>
       (Ok tt, (fst sc, prime_all (match item with One d => [d] | Many l => l end)
                                  (snd sc)));
     m_dataLoader := VObj [("name", VStr "DataLoader")];
     m_cache := cache;
     m_cachePrefix := VStr ("firestore-" ++ parent_of collection ++ "-") |}.

Definition lru : value := VObj [("name", VStr "InMemoryLRUCache")].

(** A collection handle. *)
Definition users : value :=
  VObj [("id", VStr "users"); ("path", VStr "users");
        ("firestore", VObj [("projectId", VStr "demo")]);
        ("doc", VFun "doc"); ("withConverter", VFun "withConverter")].

(** What a caller may pass instead: a handle without [doc]. *)
Definition not_a_collection : value :=
  VObj [("id", VStr "users"); ("path", VStr "users");
        ("firestore", VObj [("projectId", VStr "demo")])].

(** Nor is a document reference a collection: it has an id, a path and a
    client, and no [doc]. *)
Definition a_document : value := VDocRef {| projectId := "demo" |} "users/42".

Definition console : FirestoreDataSourceOptions := {| logger := Some "console" |}.

Definition quiet : FirestoreDataSourceOptions := {| logger := None |}.

Definition ada : document :=
  [("id", VStr "42"); ("collection", VStr "users"); ("name", VStr "Ada")].

Definition grace : document := [("name", VStr "Grace")].

(** A store with Ada's document, nothing cached, nothing done yet. *)
Definition start : @world mem tier :=
  {| store := {| documents := [("42", [("name", VStr "Ada")])]; next_id := 0 |};
     cache_tiers := [];
     trace := [] |}.

(** The data source constructed on [users], before and after
    [initialize]. *)
Definition uninitialized : @FirestoreDataSource mem tier := constructed users console.

Definition initialized : @FirestoreDataSource mem tier :=
  initialize caching_methods lru uninitialized VUndefined VUndefined.

Definition all_users (collection : value) : value := collection.

End Sample.

(** ** The Batching Loader

    Modelled from the spec: the Batching Loader of section 4.2, which is the
    [dataloader] package as [src/cache.ts] sets it up; neither is among the
    sources.  Under cooperative scheduling the [load] calls of a tick run
    one after the other, each registering its id and getting a promise;
    the batch is dispatched when control goes back to the scheduler. *)

Module Loader.

Import Js Helpers.

(** A loader: the promise memoized for each id, the batch of the current
    tick (the wanted ids, each with its promise), the promises resolved so
    far with their results ([None] is [null], not found), and the store
    round trips so far, each with the ids it asked for. *)
Record loader : Type := {
  memo : list (string * nat);
  queue : list (string * nat);
  settled : list (nat * option document);
  fetches : list (list string);
  next : nat
}.

Definition new : loader :=
  {| memo := []; queue := []; settled := []; fetches := []; next := O |}.

(** [load(id)]: the promise memoized for the id if there is one; else a new
    promise, memoized, and the id registered in the batch of this tick. *)
Definition load (id : string) (l : loader) : nat * loader :=
  match lookup id (memo l) with
  | Some p => (p, l)
  | None =>
      (next l,
       {| memo := (id, next l) :: memo l;
          queue := (queue l ++ [(id, next l)])%list;
          settled := settled l;
          fetches := fetches l;
          next := S (next l) |})
  end.

(** The end of a tick: if ids are wanted, one store round trip for the
    batch, [batchGet(ids)], whose aligned results resolve the promises of
    the batch.  [found] is what the store holds at that time. *)
Definition dispatch (found : string -> option document) (l : loader) : loader :=
  match queue l with
  | [] => l
  | q =>
      {| memo := memo l;
         queue := [];
         settled := (settled l ++ map (fun e => (snd e, found (fst e))) q)%list;
         fetches := (fetches l ++ [map fst q])%list;
         next := next l |}
  end.

(** [prime(document, overwrite)]: a resolved promise for the id of the
    document, unless one is memoized and [overwrite] is false. *)
Definition prime (id : string) (doc : document) (overwrite : bool) (l : loader)
  : loader :=
  if has_prop id (memo l) && negb overwrite then l
  else
    {| memo := set_prop id (next l) (memo l);
       queue := queue l;
       settled := ((next l, Some doc) :: settled l)%list;
       fetches := fetches l;
       next := S (next l) |}.

(** [clear(id)]: the id is no longer memoized. *)
Definition clear (id : string) (l : loader) : loader :=
  {| memo := remove_prop id (memo l);
     queue := queue l;
     settled := settled l;
     fetches := fetches l;
     next := next l |}.

(** What a caller suspended on the promise receives, once it is resolved. *)
Fixpoint await (p : nat) (st : list (nat * option document))
  : option (option document) :=
  match st with
  | [] => None
  | (q, r) :: rest => if Nat.eqb q p then Some r else await p rest
  end.

(** The [load] calls of one tick, in order, each with the promise it got. *)
Fixpoint loads (ids : list string) (l : loader) : list (string * nat) * loader :=
  match ids with
  | [] => ([], l)
  | id :: rest =>
      let (p, l1) := load id l in
      let (ps, l2) := loads rest l1 in
      ((id, p) :: ps, l2)
  end.

(** A tick: the calls made before control goes back to the scheduler, and
    what the store holds when the batch is dispatched. *)
Definition tick : Type := (list string * (string -> option document))%type.

Definition run_tick (t : tick) (l : loader) : list (string * nat) * loader :=
  let (ps, l1) := loads (fst t) l in (ps, dispatch (snd t) l1).

(** The lifetime of the loader of one request: tick after tick. *)
Fixpoint lifetime (ticks : list tick) (l : loader) : list (string * nat) * loader :=
  match ticks with
  | [] => ([], l)
  | t :: rest =>
      let (ps, l1) := run_tick t l in
      let (qs, l2) := lifetime rest l1 in
      ((ps ++ qs)%list, l2)
  end.

(** The number of times the id was asked of the store. *)
Definition fetched (id : string) (l : loader) : nat :=
  count_occ string_dec (List.concat (fetches l)) id.

(** The number of times the id is in the batch of the tick. *)
Definition wanted (id : string) (l : loader) : nat :=
  count_occ string_dec (map fst (queue l)) id.

(** What the runs of the loader keep true: an id is in the batches fetched
    and in the batch of the tick once in all if it is memoized, not at all
    if it is not; the promise memoized for an id is in the batch of the tick
    or resolved. *)
Record invariant (l : loader) : Prop := {
  once : forall id,
    (fetched id l + wanted id l)%nat
    = match lookup id (memo l) with Some _ => 1%nat | None => O end;
  due : forall id p,
    lookup id (memo l) = Some p ->
    In (id, p) (queue l) \/ exists r, await p (settled l) = Some r
}.

(** The calls of a run got the promises that stay memoized. *)
Definition answered (calls : list (string * nat)) (l : loader) : Prop :=
  forall id p, In (id, p) calls -> lookup id (memo l) = Some p.

(** Sample data: three callers ask for "42" in one tick, one of them again
    in the next tick, with another id in between. *)
Definition ada : document :=
  [("id", VStr "42"); ("collection", VStr "users"); ("name", VStr "Ada")].

Definition holds_ada (id : string) : option document :=
  if id =? "42" then Some ada else None.

Definition request : list tick :=
  [(["42"; "7"; "42"; "42"], holds_ada); (["42"; "8"], holds_ada)].

End Loader.

(** ** JSON data without Tagged Values *)

Module PlainJson.

Import Str Num Js Helpers CodecSpec.

(** The value JSON.parse gives without a reviver. *)
Fixpoint of_json (j : json) : value :=
  match j with
  | JNull => VNull
  | JBool b => VBool b
  | JNum x => VNum x
  | JStr s => VStr s
  | JArr l => VArr (map of_json l)
  | JObj ms => VObj (map (fun m => (fst m, of_json (snd m))) ms)
  end.

(** No string in the data starts with a sentinel. *)
Fixpoint sentinel_free (j : json) : bool :=
  match j with
  | JStr s => negb (symbolMatch s)
  | JArr l => forallb sentinel_free l
  | JObj ms => forallb (fun m => sentinel_free (snd m)) ms
  | _ => true
  end.

(** Every number in the data is finite, as in JSON text. *)
Fixpoint finite_numbers (j : json) : bool :=
  match j with
  | JNum x => is_finite x
  | JArr l => forallb finite_numbers l
  | JObj ms => forallb (fun m => finite_numbers (snd m)) ms
  | _ => true
  end.

(** Another document than [ada]. *)
Definition grace : value :=
  VObj [("id", VStr "43"); ("collection", VStr "users"); ("name", VStr "Grace")].

(** Sample data: a cache entry some other writer made. *)
Definition entry : json :=
  JObj [("id", JStr "42"); ("name", JStr "Ada");
        ("tags", JArr [JStr "a:b"; JNull; JNum (Finite false "25" 1)])].

End PlainJson.

(** ** Sample data for the converter and the data source *)

Module DataSourceSpec.

Import Str Num Js Helpers DataSource.

(** Sample data: a snapshot whose stored data has an [id] field of its
    own, and one whose data has none. *)
Definition shadowing : QueryDocumentSnapshot :=
  {| snap_id := "42"; snap_parent_id := "users";
     snap_data := [("name", VStr "Ada"); ("id", VStr "other")] |}.

Definition stored : QueryDocumentSnapshot :=
  {| snap_id := "42"; snap_parent_id := "users";
     snap_data := [("name", VStr "Ada"); ("age", VNum (Finite false "36" 2))] |}.

(** Sample data: a handle with the four capabilities that is no
    collection, and a store without documents. *)
Definition impostor : value :=
  VObj [("id", VNum (Finite false "1" 1)); ("path", VBool true);
        ("firestore", VStr "x"); ("doc", VStr "y");
        ("withConverter", VFun "anything")].

Definition empty_start : @world Sample.mem Sample.tier :=
  {| store := {| Sample.documents := []; Sample.next_id := 0 |};
     cache_tiers := [];
     trace := [] |}.

End DataSourceSpec.

(** * Properties *)

Import Str Num Js Helpers.

(** ** Strings *)

Module StrFacts.

Lemma app_nil_r (s : string) : s ++ "" = s.
Proof. induction s as [|c r IH]; simpl; [reflexivity | now rewrite IH]. Qed.

Lemma app_assoc (a b c : string) : (a ++ b) ++ c = a ++ (b ++ c).
Proof. induction a as [|x r IH]; simpl; [reflexivity | now rewrite IH]. Qed.

Lemma length_app (a b : string) : length (a ++ b) = (length a + length b)%nat.
Proof. induction a as [|x r IH]; simpl; [reflexivity | now rewrite IH]. Qed.

Lemma length_zeros (n : nat) : length (zeros n) = n.
Proof. induction n as [|n IH]; simpl; [reflexivity | now rewrite IH]. Qed.

Lemma take_drop (n : nat) (s : string) : take n s ++ drop n s = s.
Proof.
  revert s; induction n as [|n IH]; intros [|c r]; simpl; try reflexivity.
  now rewrite IH.
Qed.

Lemma length_take (n : nat) (s : string) :
  (n <= length s)%nat -> length (take n s) = n.
Proof.
  revert s; induction n as [|n IH]; intros [|c r]; simpl; intros H;
    try reflexivity; try lia.
  rewrite IH; [reflexivity | lia].
Qed.

Lemma drop_zeros (n : nat) (s : string) : drop n (zeros n ++ s) = s.
Proof. induction n as [|n IH]; simpl; [now destruct s | exact IH]. Qed.

Lemma is_digit_zero : is_digit "0" = true.
Proof. reflexivity. Qed.

Lemma digit_not_colon (c : ascii) : is_digit c = true -> Ascii.eqb c ":" = false.
Proof.
  destruct c as [[] [] [] [] [] [] [] []]; try reflexivity; discriminate.
Qed.

Lemma digit_not_space (c : ascii) : is_digit c = true -> is_space c = false.
Proof.
  destruct c as [[] [] [] [] [] [] [] []]; try reflexivity; discriminate.
Qed.

Lemma digit_not_sign (c : ascii) :
  is_digit c = true -> Ascii.eqb c "-" = false /\ Ascii.eqb c "+" = false.
Proof.
  destruct c as [[] [] [] [] [] [] [] []]; try (split; reflexivity); discriminate.
Qed.

Lemma prefix_head (c d : ascii) (r s : string) :
  c <> d -> prefix (String c r) (String d s) = false.
Proof.
  intros H.
  change (prefix (String c r) (String d s))
    with (if ascii_dec c d then prefix r s else false).
  destruct (ascii_dec c d); [contradiction | reflexivity].
Qed.

Lemma all_digits_app (a b : string) :
  all_digits (a ++ b) = all_digits a && all_digits b.
Proof.
  induction a as [|c r IH]; simpl; [reflexivity|].
  now rewrite IH, andb_assoc.
Qed.

Lemma all_digits_zeros (n : nat) : all_digits (zeros n) = true.
Proof. induction n as [|n IH]; simpl; [reflexivity | exact IH]. Qed.

Lemma all_digits_take (n : nat) (s : string) :
  all_digits s = true -> all_digits (take n s) = true.
Proof.
  revert s; induction n as [|n IH]; intros [|c r]; simpl; try reflexivity.
  intros H; apply andb_true_iff in H as [Hc Hr].
  now rewrite Hc, IH.
Qed.

Lemma all_digits_drop (n : nat) (s : string) :
  all_digits s = true -> all_digits (drop n s) = true.
Proof.
  revert s; induction n as [|n IH]; intros [|c r]; simpl; try reflexivity;
    try (intros H; exact H).
  intros H; apply andb_true_iff in H as [Hc Hr]. now apply IH.
Qed.

(** The digits of a string followed by something that is not a digit are
    exactly what [span_digits] takes. *)
Lemma span_digits_app (a b : string) :
  all_digits a = true -> starts_with_digit b = false ->
  span_digits (a ++ b) = (a, b).
Proof.
  intros Ha Hb; induction a as [|c r IH]; simpl in *.
  - destruct b as [|x y]; simpl in *; [reflexivity | now rewrite Hb].
  - apply andb_true_iff in Ha as [Hc Hr].
    now rewrite Hc, (IH Hr).
Qed.

Lemma span_digits_all (a : string) :
  all_digits a = true -> span_digits a = (a, "").
Proof.
  intros Ha. rewrite <- (app_nil_r a) at 1. now apply span_digits_app.
Qed.

Lemma has_char_app (c : ascii) (a b : string) :
  has_char c (a ++ b) = has_char c a || has_char c b.
Proof.
  induction a as [|x r IH]; simpl; [reflexivity|].
  now rewrite IH, orb_assoc.
Qed.

Lemma digits_no_colon (s : string) :
  all_digits s = true -> has_char ":" s = false.
Proof.
  induction s as [|c r IH]; simpl; [reflexivity|].
  intros H; apply andb_true_iff in H as [Hc Hr].
  now rewrite (digit_not_colon _ Hc), (IH Hr).
Qed.

(** A string without the separator is one piece. *)
Lemma split_none (sep : ascii) (s : string) :
  has_char sep s = false -> split sep s = [s].
Proof.
  induction s as [|c r IH]; simpl; [reflexivity|].
  intros H; apply orb_false_iff in H as [Hc Hr].
  now rewrite Hc, (IH Hr).
Qed.

(** The first piece ends at the first separator. *)
Lemma split_app (sep : ascii) (a b : string) :
  has_char sep a = false ->
  split sep (a ++ String sep b) = a :: split sep b.
Proof.
  induction a as [|c r IH]; simpl.
  - intros _. now rewrite Ascii.eqb_refl.
  - intros H; apply orb_false_iff in H as [Hc Hr].
    now rewrite Hc, (IH Hr).
Qed.

Lemma split_nonempty (sep : ascii) (s : string) : split sep s <> [].
Proof.
  destruct s as [|c r]; simpl; [discriminate|].
  destruct (Ascii.eqb c sep); [discriminate|].
  destruct (split sep r); discriminate.
Qed.

End StrFacts.

(** ** Numbers: printing and reading back *)

Module NumFacts.

Import StrFacts.

Lemma all_digits_uint (d : Decimal.uint) :
  all_digits (NilEmpty.string_of_uint d) = true.
Proof. induction d; simpl; auto. Qed.

Lemma all_digits_dec (e : N) : all_digits (dec e) = true.
Proof. apply all_digits_uint. Qed.

Lemma undec_dec (e : N) : undec (dec e) = e.
Proof.
  unfold undec, dec. rewrite NilEmpty.usu. apply DecimalN.Unsigned.of_to.
Qed.

Lemma strip_zeros (n : nat) : strip_trailing_zeros (zeros n) = "".
Proof. induction n as [|n IH]; simpl; [reflexivity | now rewrite IH]. Qed.

Lemma strip_app_zeros (s : string) (n : nat) :
  strip_trailing_zeros (s ++ zeros n) = strip_trailing_zeros s.
Proof.
  induction s as [|c r IH]; simpl; [apply strip_zeros | now rewrite IH].
Qed.

Lemma strip_last_nonzero (s : string) :
  last_nonzero s = true -> strip_trailing_zeros s = s.
Proof.
  induction s as [|c r IH]; [discriminate|].
  destruct r as [|c' r'].
  - simpl. intros H. now destruct (Ascii.eqb c "0").
  - intros H. change (last_nonzero (String c' r') = true) in H.
    change (strip_trailing_zeros (String c (String c' r')))
      with (match strip_trailing_zeros (String c' r') with
            | "" => if Ascii.eqb c "0" then "" else String c ""
            | r0 => String c r0
            end).
    now rewrite (IH H).
Qed.

Lemma leading_zeros_app (n : nat) (s : string) :
  first_nonzero s = true -> leading_zeros (zeros n ++ s) = n.
Proof.
  intros H; induction n as [|n IH]; simpl; [|now rewrite IH].
  destruct s as [|c r]; [discriminate|]. simpl in *.
  now destruct (Ascii.eqb c "0").
Qed.

Lemma wf_digits_parts (ds : string) :
  wf_digits ds = true ->
  all_digits ds = true /\ first_nonzero ds = true /\ last_nonzero ds = true.
Proof.
  unfold wf_digits; intros H.
  apply andb_true_iff in H as [H H3]. apply andb_true_iff in H as [H1 H2].
  auto.
Qed.

(** Reading [z] zeros, the digits and [m] more zeros gives the digits back,
    with the point moved by [z]. *)
Lemma normalize_padded (neg : bool) (z m : nat) (ds : string) (pt : Z) :
  wf_digits ds = true ->
  normalize neg (zeros z ++ ds ++ zeros m) pt = Finite neg ds (pt - Z.of_nat z).
Proof.
  intros H; destruct (wf_digits_parts _ H) as (Hd & Hf & Hl).
  unfold normalize.
  rewrite leading_zeros_app.
  - rewrite drop_zeros, strip_app_zeros, (strip_last_nonzero _ Hl).
    destruct ds; [discriminate | reflexivity].
  - destruct ds; [discriminate | exact Hf].
Qed.

Lemma normalize_wf (neg : bool) (ds : string) (pt : Z) :
  wf_digits ds = true -> normalize neg ds pt = Finite neg ds pt.
Proof.
  intros H. generalize (normalize_padded neg 0 0 ds pt H); simpl.
  rewrite app_nil_r, Z.sub_0_r. exact (fun e => e).
Qed.

Lemma wf_digits_head (ds : string) :
  wf_digits ds = true ->
  exists c r, ds = String c r /\ is_digit c = true /\ all_digits r = true.
Proof.
  intros H; destruct (wf_digits_parts _ H) as (Hd & Hf & _).
  destruct ds as [|c r]; [discriminate|].
  simpl in Hd; apply andb_true_iff in Hd as [Hc Hr]. eauto.
Qed.

Lemma toString_finite_notation (ds : string) (n : Z) :
  notation ds n (toString_finite ds n).
Proof.
  unfold toString_finite.
  destruct (Z.leb_spec (Z.of_nat (length ds)) n);
    destruct (Z.leb_spec n 21); simpl;
    destruct (Z.ltb_spec 0 n); simpl;
    destruct (Z.ltb_spec (-6) n); simpl;
    destruct (Z.leb_spec n 0); simpl;
    try (constructor; lia).
Qed.

(** A printed positive finite number begins with a digit. *)
Lemma toString_finite_head (ds : string) (n : Z) :
  wf_digits ds = true ->
  exists c r, toString_finite ds n = String c r /\ is_digit c = true.
Proof.
  intros H; destruct (wf_digits_head _ H) as (c & r & -> & Hc & Hr).
  destruct (toString_finite_notation (String c r) n) as [Hn|Hn|Hn|].
  - simpl; eauto.
  - destruct (Z.to_nat n) eqn:En; [lia|]. simpl; eauto.
  - simpl; eauto using is_digit_zero.
  - destruct r; simpl; eauto.
Qed.

Lemma exponent_printed (e : Z) : read_exponent (exponent_part e) = e.
Proof.
  unfold read_exponent, exponent_part.
  change (Ascii.eqb "e" "e" || Ascii.eqb "e" "E") with true; cbv iota.
  destruct (e <? 0)%Z eqn:E; simpl append; unfold read_sign;
    [change (Ascii.eqb "-" "-") with true
    |change (Ascii.eqb "+" "-") with false;
     change (Ascii.eqb "+" "+") with true]; cbv iota;
    rewrite (span_digits_all _ (all_digits_dec _)), undec_dec.
  - apply Z.ltb_lt in E. lia.
  - apply Z.ltb_ge in E. lia.
Qed.

Lemma read_fraction_point (r : string) :
  read_fraction (String "." r) = span_digits r.
Proof. reflexivity. Qed.

Lemma read_fraction_exponent (e : Z) :
  read_fraction (exponent_part e) = ("", exponent_part e).
Proof. reflexivity. Qed.

Lemma read_decimal_digits (neg : bool) (ip fp s3 s : string) (c : ascii) (r : string) :
  prefix "Infinity" s = false ->
  span_digits s = (ip, String "." (fp ++ s3)) \/
  (span_digits s = (ip, s3) /\ fp = "" /\ read_fraction s3 = ("", s3)) ->
  all_digits fp = true -> starts_with_digit s3 = false ->
  ip ++ fp = String c r ->
  read_decimal neg s
  = normalize neg (ip ++ fp) (Z.of_nat (length ip) + read_exponent s3).
Proof.
  intros Hinf Hs Hfp Hs3 Hne. unfold read_decimal. rewrite Hinf.
  destruct Hs as [Hs|(Hs & -> & Hfr)]; rewrite Hs.
  - rewrite read_fraction_point, span_digits_app by assumption.
    now rewrite Hne.
  - rewrite Hfr. now rewrite Hne.
Qed.

(** Reading back a printed positive finite number. *)
Lemma read_decimal_toString_finite (neg : bool) (ds : string) (n : Z) :
  wf_digits ds = true ->
  read_decimal neg (toString_finite ds n) = Finite neg ds n.
Proof.
  intros H.
  destruct (toString_finite_head ds n H) as (c0 & r0 & E0 & Hc0).
  assert (Hinf : prefix "Infinity" (toString_finite ds n) = false).
  { rewrite E0. apply prefix_head. intros <-. discriminate Hc0. }
  clear E0 Hc0 c0 r0. revert Hinf.
  destruct (wf_digits_parts _ H) as (Hd & Hf & Hl).
  destruct (wf_digits_head _ H) as (c & r & Eds & Hc & Hr).
  destruct (toString_finite_notation ds n) as [Hn|Hn|Hn|]; intros Hinf.
  - (* an integer: the digits, then zeros *)
    set (m := Z.to_nat (n - Z.of_nat (length ds))) in *.
    rewrite (read_decimal_digits neg (ds ++ zeros m) "" "" _ c (r ++ zeros m));
      try reflexivity; try assumption.
    + rewrite app_nil_r.
      rewrite (normalize_padded neg 0 m ds _ H).
      f_equal. rewrite length_app, length_zeros.
      change (read_exponent "") with 0. subst m. lia.
    + right. rewrite span_digits_all; [auto|].
      now rewrite all_digits_app, Hd, all_digits_zeros.
    + now rewrite app_nil_r, Eds.
  - (* the point inside the digits *)
    rewrite (read_decimal_digits neg (take (Z.to_nat n) ds)
               (drop (Z.to_nat n) ds) "" _ c r);
      try reflexivity; try assumption.
    + rewrite take_drop, normalize_wf by exact H.
      f_equal. rewrite length_take by lia. simpl. lia.
    + left. rewrite app_nil_r. apply span_digits_app; auto using all_digits_take.
    + auto using all_digits_drop.
    + now rewrite take_drop.
  - (* a fraction: "0.", zeros, the digits *)
    set (m := Z.to_nat (- n)) in *.
    rewrite (read_decimal_digits neg "0" (zeros m ++ ds) "" _ "0"%char (zeros m ++ ds));
      try reflexivity; try assumption.
    + rewrite <- (app_nil_r ds) at 1.
      rewrite (normalize_padded neg (S m) 0 ds _ H).
      f_equal. change (read_exponent "") with 0.
      change (length "0") with 1%nat. subst m. lia.
    + left. rewrite app_nil_r. reflexivity.
    + now rewrite all_digits_app, Hd, all_digits_zeros.
  - (* scientific notation *)
    assert (Hne : forall e, starts_with_digit (exponent_part e) = false)
      by reflexivity.
    revert Hinf. rewrite Eds. destruct r as [|c' r']; unfold scientific; intros Hinf.
    + rewrite (read_decimal_digits neg (String c "") "" (exponent_part (n - 1)) _ c "");
        try reflexivity; try assumption.
      * rewrite exponent_printed.
        change (String c "" ++ "") with (String c "").
        rewrite <- Eds, normalize_wf by exact H.
        f_equal. rewrite ?Eds. cbn [length]. lia.
      * right. split; [|split; reflexivity].
        apply (span_digits_app (String c "")); [simpl; now rewrite Hc | apply Hne].
    + set (r := String c' r') in *.
      rewrite (read_decimal_digits neg (String c "") r (exponent_part (n - 1)) _ c r);
        try reflexivity; try assumption.
      * rewrite exponent_printed.
        change (String c "" ++ r) with (String c r).
        rewrite <- Eds, normalize_wf by exact H.
        f_equal. rewrite ?Eds. cbn [length]. lia.
      * left. apply (span_digits_app (String c ""));
          [simpl; now rewrite Hc | reflexivity].
Qed.

Lemma trim_start_digit (c : ascii) (r : string) :
  is_digit c = true -> trim_start (String c r) = String c r.
Proof. intros H; simpl. now rewrite (digit_not_space _ H). Qed.

Lemma read_sign_digit (c : ascii) (r : string) :
  is_digit c = true -> read_sign (String c r) = (false, String c r).
Proof.
  intros H; unfold read_sign. destruct (digit_not_sign _ H) as [-> ->].
  reflexivity.
Qed.

(** parseFloat reads back what a template literal prints. *)
Lemma parseFloat_toString (x : number) :
  wf x = true -> parseFloat (toString x) = x.
Proof.
  destruct x as [|[]| |neg ds n]; try reflexivity.
  simpl; intros H.
  destruct (toString_finite_head ds n H) as (c & r & E & Hc).
  unfold parseFloat. destruct neg.
  - simpl append. simpl trim_start. unfold read_sign.
    change (Ascii.eqb "-" "-") with true; cbv iota.
    now apply read_decimal_toString_finite.
  - rewrite E, trim_start_digit, read_sign_digit, <- E by exact Hc.
    now apply read_decimal_toString_finite.
Qed.

(** parseInt reads back a printed integer of at most 21 digits. *)
Lemma parseInt_toString (x : number) :
  is_plain_integer x = true -> parseInt (toString x) = x.
Proof.
  destruct x as [|[]| |neg ds n]; try reflexivity; try discriminate.
  simpl; intros H.
  apply andb_true_iff in H as [H H2]. apply andb_true_iff in H as [H H1].
  assert (Hb : toString_finite ds n
               = ds ++ zeros (Z.to_nat (n - Z.of_nat (length ds)))).
  { unfold toString_finite. now rewrite H1, H2. }
  apply Z.leb_le in H2.
  destruct (wf_digits_parts _ H) as (Hd & Hf & Hl).
  destruct (wf_digits_head _ H) as (c & r & Eds & Hc & Hr).
  apply Z.leb_le in H1.
  assert (Hcore : forall s, read_sign (trim_start s) = (neg, toString_finite ds n) ->
                            parseInt s = Finite neg ds n).
  { intros s Hs. unfold parseInt. rewrite Hs, Hb.
    rewrite span_digits_all
      by (now rewrite all_digits_app, Hd, all_digits_zeros).
    destruct (ds ++ zeros _) eqn:Eb.
    { rewrite Eds in Eb; discriminate. }
    rewrite <- Eb.
    generalize (normalize_padded neg 0 (Z.to_nat (n - Z.of_nat (length ds))) ds
                  (Z.of_nat (length (ds ++ zeros (Z.to_nat (n - Z.of_nat (length ds))))))
                  H).
    simpl zeros at 1. simpl append at 1. intros ->.
    f_equal. rewrite length_app, length_zeros. lia. }
  apply Hcore. destruct neg.
  - simpl append. simpl trim_start. unfold read_sign.
    now change (Ascii.eqb "-" "-") with true.
  - rewrite Hb, Eds. simpl append.
    now rewrite trim_start_digit, read_sign_digit by exact Hc.
Qed.

Lemma plain_integer_wf (x : number) : is_plain_integer x = true -> wf x = true.
Proof.
  destruct x; simpl; try reflexivity; try discriminate.
  intros H. apply andb_true_iff in H as [H _]. now apply andb_true_iff in H as [H _].
Qed.

Lemma exponent_no_colon (e : Z) : has_char ":" (exponent_part e) = false.
Proof.
  unfold exponent_part.
  destruct (e <? 0)%Z; simpl; apply digits_no_colon, all_digits_dec.
Qed.

(** A printed number has no colon. *)
Lemma toString_no_colon (x : number) :
  wf x = true -> has_char ":" (toString x) = false.
Proof.
  destruct x as [|[]| |neg ds n]; try reflexivity.
  simpl; intros H. destruct (wf_digits_parts _ H) as (Hd & _ & _).
  assert (Hb : has_char ":" (toString_finite ds n) = false).
  { destruct (toString_finite_notation ds n) as [Hn|Hn|Hn|].
    - rewrite has_char_app, (digits_no_colon ds Hd).
      now rewrite digits_no_colon by apply all_digits_zeros.
    - rewrite !has_char_app.
      rewrite (digits_no_colon (take (Z.to_nat n) ds)) by auto using all_digits_take.
      rewrite (digits_no_colon (drop (Z.to_nat n) ds)) by auto using all_digits_drop.
      reflexivity.
    - cbn [append has_char Ascii.eqb Bool.eqb orb].
      rewrite has_char_app, (digits_no_colon ds Hd).
      now rewrite digits_no_colon by apply all_digits_zeros.
    - destruct (wf_digits_head _ H) as (c & r & -> & Hc & Hr).
      destruct r as [|c' r']; unfold scientific.
      + cbn [has_char]. now rewrite (digit_not_colon _ Hc), exponent_no_colon.
      + pose proof (digits_no_colon _ Hr) as Hr'.
        change (String c ("." ++ String c' r' ++ exponent_part (n - 1)))
          with (String c (String "." (String c' r' ++ exponent_part (n - 1)))).
        cbn [has_char].
        rewrite (digit_not_colon _ Hc), has_char_app, Hr', exponent_no_colon.
        reflexivity. }
  destruct neg; simpl; auto.
Qed.

End NumFacts.

Example toString_ex2 : toString (Finite false "169" 10) = "1690000000".
Proof. reflexivity. Qed.
Example toString_ex3 : toString (Finite true "593293" 2) = "-59.3293".
Proof. reflexivity. Qed.
Example toString_ex4 : toString (Finite false "15" (-6)) = "1.5e-7".
Proof. reflexivity. Qed.
Example toString_ex5 : toString (Finite false "1" 22) = "1e+21".
Proof. reflexivity. Qed.
Example toString_ex6 : toString (Finite false "5" (-2)) = "0.005".
Proof. reflexivity. Qed.
Example parseFloat_ex1 : parseFloat "-59.3293" = Finite true "593293" 2.
Proof. reflexivity. Qed.
Example parseFloat_ex2 : parseFloat "1.5e-7" = Finite false "15" (-6).
Proof. reflexivity. Qed.
Example parseFloat_ex3 : parseFloat "0.005" = Finite false "5" (-2).
Proof. reflexivity. Qed.
Example parseFloat_ex4 : parseFloat "1e+21" = Finite false "1" 22.
Proof. reflexivity. Qed.
Example parseFloat_ex5 : parseFloat "undefined" = NaN.
Proof. reflexivity. Qed.
Example parseInt_ex1 : parseInt "1690000000" = Finite false "169" 10.
Proof. reflexivity. Qed.
Example parseInt_ex2 : parseInt "12abc" = Finite false "12" 2.
Proof. reflexivity. Qed.
Example split_ex1 : split ":" "$$Timestamp$$:1:2" = ["$$Timestamp$$"; "1"; "2"].
Proof. reflexivity. Qed.
Example split_ex2 : split ":" "a::b:" = ["a"; ""; "b"; ""].
Proof. reflexivity. Qed.

(** ** The codec *)

Module CodecFacts.

Import StrFacts NumFacts CodecSpec.

Lemma prefix_app (a b : string) : prefix a (a ++ b) = true.
Proof.
  induction a as [|c r IH]; [now destruct b|].
  change (prefix (String c r) (String c r ++ b))
    with (if ascii_dec c c then prefix r (r ++ b) else false).
  destruct (ascii_dec c c); [exact IH | contradiction].
Qed.

Lemma prefix_split (a s : string) :
  prefix a s = true -> exists b, s = a ++ b.
Proof.
  revert s; induction a as [|c r IH]; intros s H.
  - exists s; reflexivity.
  - destruct s as [|d t]; [discriminate|].
    change (prefix (String c r) (String d t))
      with (if ascii_dec c d then prefix r t else false) in H.
    destruct (ascii_dec c d) as [<-|]; [|discriminate].
    destruct (IH _ H) as [b ->]. now exists b.
Qed.

(** Induction on values, through the arrays and the objects. *)
Lemma value_ind' (P : value -> Prop) :
  P VUndefined -> P VNull -> (forall b, P (VBool b)) -> (forall x, P (VNum x)) ->
  (forall s, P (VStr s)) ->
  (forall l, Forall P l -> P (VArr l)) ->
  (forall ps, Forall (fun p => P (snd p)) ps -> P (VObj ps)) ->
  (forall name, P (VFun name)) ->
  (forall s n, P (VTimestamp s n)) -> (forall a o, P (VGeoPoint a o)) ->
  (forall fs p, P (VDocRef fs p)) ->
  forall v, P v.
Proof.
  intros Hu Hn Hb Hx Hs Ha Ho Hf Ht Hg Hd.
  fix IH 1. intros [ | |b|x|s|l|ps|name|s n|a o|fs p].
  - exact Hu.
  - exact Hn.
  - apply Hb.
  - apply Hx.
  - apply Hs.
  - apply Ha. induction l as [|x r IHr]; constructor; [apply IH | exact IHr].
  - apply Ho. induction ps as [|[k x] r IHr]; constructor; [apply IH | exact IHr].
  - apply Hf.
  - apply Ht.
  - apply Hg.
  - apply Hd.
Qed.

(** *** The reviver, kind by kind *)

Lemma split_sentinel (tag rest : string) :
  has_char ":" tag = false ->
  split ":" (tag ++ String ":" rest) = tag :: split ":" rest.
Proof. apply split_app. Qed.

Lemma reviver_timestamp (coll : CollectionReference) (k : key) (rest : string) :
  reviverFactory coll k (VStr ("$$Timestamp$$:" ++ rest))
  = reconstruct coll Timestamp ("$$Timestamp$$:" ++ rest).
Proof.
  unfold reviverFactory, symbolMatch, reconstruct.
  rewrite prefix_app. cbn [orb].
  change ("$$Timestamp$$:" ++ rest) with ("$$Timestamp$$" ++ String ":" rest).
  rewrite split_sentinel by reflexivity. reflexivity.
Qed.

Lemma reviver_geopoint (coll : CollectionReference) (k : key) (rest : string) :
  reviverFactory coll k (VStr ("$$GeoPoint$$:" ++ rest))
  = reconstruct coll GeoPoint ("$$GeoPoint$$:" ++ rest).
Proof.
  unfold reviverFactory, symbolMatch, reconstruct.
  rewrite (prefix_app "$$GeoPoint$$:"), orb_true_r. cbn [orb].
  change ("$$GeoPoint$$:" ++ rest) with ("$$GeoPoint$$" ++ String ":" rest).
  rewrite split_sentinel by reflexivity. reflexivity.
Qed.

Lemma reviver_reference (coll : CollectionReference) (k : key) (rest : string) :
  reviverFactory coll k (VStr ("$$DocumentReference$$:" ++ rest))
  = reconstruct coll DocumentReference ("$$DocumentReference$$:" ++ rest).
Proof.
  unfold reviverFactory, symbolMatch, reconstruct.
  rewrite (prefix_app "$$DocumentReference$$:"), orb_true_r.
  change ("$$DocumentReference$$:" ++ rest)
    with ("$$DocumentReference$$" ++ String ":" rest).
  rewrite split_sentinel by reflexivity. reflexivity.
Qed.

Lemma reviver_by_kind (coll : CollectionReference) (k : key) (v : value) :
  reviverFactory coll k v = revive_by_kind coll v.
Proof.
  destruct v as [ | |b|x|s|l|ps|name|sec n|a o|fs p]; try reflexivity.
  unfold revive_by_kind, sentinel_kind.
  destruct (prefix "$$Timestamp$$:" s) eqn:E1.
  { destruct (prefix_split _ _ E1) as [rest ->]. apply reviver_timestamp. }
  destruct (prefix "$$GeoPoint$$:" s) eqn:E2.
  { destruct (prefix_split _ _ E2) as [rest ->]. apply reviver_geopoint. }
  destruct (prefix "$$DocumentReference$$:" s) eqn:E3.
  { destruct (prefix_split _ _ E3) as [rest ->]. apply reviver_reference. }
  unfold reviverFactory, symbolMatch. now rewrite E1, E2, E3.
Qed.

Lemma reconstruct_kind (coll : CollectionReference) (kd : kind) (s : string) :
  kind_of (reconstruct coll kd s) = Some kd.
Proof. now destruct kd. Qed.

Lemma sentinel_kind_match (s : string) :
  symbolMatch s = match sentinel_kind s with Some _ => true | None => false end.
Proof.
  unfold symbolMatch, sentinel_kind.
  destruct (prefix "$$Timestamp$$:" s); [reflexivity|].
  destruct (prefix "$$GeoPoint$$:" s); [reflexivity|].
  now destruct (prefix "$$DocumentReference$$:" s).
Qed.

(** When the pattern matches, the split has a second piece: the reviver
    never reads a missing path. *)
Lemma symbolMatch_second_piece (s : string) :
  symbolMatch s = true ->
  exists tag p rest, split ":" s = tag :: p :: rest.
Proof.
  intros H. rewrite sentinel_kind_match in H. unfold sentinel_kind in H.
  assert (Hsplit : forall tag r, has_char ":" tag = false ->
            exists p rest, split ":" (tag ++ String ":" r) = tag :: p :: rest).
  { intros tag r Ht. rewrite (split_app _ _ _ Ht).
    destruct (split ":" r) as [|p rest] eqn:E.
    - now apply split_nonempty in E.
    - eauto. }
  destruct (prefix "$$Timestamp$$:" s) eqn:E1.
  { destruct (prefix_split _ _ E1) as [r ->].
    destruct (Hsplit "$$Timestamp$$" r eq_refl) as (p & rest & E). eauto. }
  destruct (prefix "$$GeoPoint$$:" s) eqn:E2.
  { destruct (prefix_split _ _ E2) as [r ->].
    destruct (Hsplit "$$GeoPoint$$" r eq_refl) as (p & rest & E). eauto. }
  destruct (prefix "$$DocumentReference$$:" s) eqn:E3; [|discriminate].
  destruct (prefix_split _ _ E3) as [r ->].
  destruct (Hsplit "$$DocumentReference$$" r eq_refl) as (p & rest & E). eauto.
Qed.

(** The replacer leaves no instance of a Firestore class. *)
Lemma replacer_no_instance (k : key) (v : value) :
  kind_of (replacer k v) = None.
Proof. now destruct v. Qed.

(** *** Decoding what the replacer wrote *)

Lemma split_two_fields (tag a b : string) :
  has_char ":" tag = false -> has_char ":" a = false -> has_char ":" b = false ->
  split ":" (tag ++ String ":" (a ++ String ":" b)) = [tag; a; b].
Proof.
  intros Ht Ha Hb.
  now rewrite (split_app _ _ _ Ht), (split_app _ _ _ Ha), (split_none _ _ Hb).
Qed.

Lemma revive_replaced_timestamp (coll : CollectionReference) (k k' : key)
  (seconds nanoseconds : number) :
  is_plain_integer seconds = true -> is_plain_integer nanoseconds = true ->
  reviverFactory coll k (replacer k' (VTimestamp seconds nanoseconds))
  = VTimestamp seconds nanoseconds.
Proof.
  intros Hs Hn. unfold replacer. rewrite reviver_timestamp. unfold reconstruct.
  change ("$$Timestamp$$:" ++ toString seconds ++ ":" ++ toString nanoseconds)
    with ("$$Timestamp$$" ++ String ":" (toString seconds ++ String ":" (toString nanoseconds))).
  rewrite split_two_fields;
    auto using toString_no_colon, plain_integer_wf.
  unfold piece; cbn [nth_error arg_string].
  now rewrite !parseInt_toString.
Qed.

Lemma revive_replaced_geopoint (coll : CollectionReference) (k k' : key)
  (latitude longitude : number) :
  wf latitude = true -> wf longitude = true ->
  reviverFactory coll k (replacer k' (VGeoPoint latitude longitude))
  = VGeoPoint latitude longitude.
Proof.
  intros Ha Ho. unfold replacer. rewrite reviver_geopoint. unfold reconstruct.
  change ("$$GeoPoint$$:" ++ toString latitude ++ ":" ++ toString longitude)
    with ("$$GeoPoint$$" ++ String ":" (toString latitude ++ String ":" (toString longitude))).
  rewrite split_two_fields; auto using toString_no_colon.
  unfold piece; cbn [nth_error arg_string].
  now rewrite !parseFloat_toString.
Qed.

Lemma revive_replaced_reference (coll : CollectionReference) (k k' : key)
  (fs : Firestore) (p : string) :
  has_char ":" p = false ->
  reviverFactory coll k (replacer k' (VDocRef fs p)) = VDocRef (firestore coll) p.
Proof.
  intros Hp. unfold replacer. rewrite reviver_reference. unfold reconstruct.
  change ("$$DocumentReference$$:" ++ p)
    with ("$$DocumentReference$$" ++ String ":" p).
  rewrite split_sentinel, (split_none _ _ Hp) by reflexivity.
  reflexivity.
Qed.

Lemma same_firestore_eq (a b : Firestore) : same_firestore a b = true -> a = b.
Proof.
  destruct a as [x], b as [y]; unfold same_firestore; simpl.
  intros H; apply String.eqb_eq in H. now subst.
Qed.

(** *** The round trip of a whole value *)

Lemma roundtrips_elems (coll : CollectionReference) (l : list value) :
  Forall (roundtrips coll) l ->
  forall fuel i i', (fold_right (fun x m => Nat.max (height x) m) O l < fuel)%nat ->
  exists js,
    JSON.SerializeJSONArray (JSON.SerializeJSONProperty replacer fuel) i l = Some js
    /\ JSON.revive_elems (JSON.InternalizeJSONProperty (reviverFactory coll)) i' js = l.
Proof.
  induction 1 as [|x r Hx Hr IH]; intros fuel i i' Hh; simpl in *.
  - exists []; split; reflexivity.
  - destruct (Hx fuel (KIndex i) (KIndex i')) as (j & Ej & Dj); [lia|].
    destruct (IH fuel (S i) (S i')) as (js & Ejs & Djs); [lia|].
    exists (j :: js). rewrite Ej, Ejs. simpl. now rewrite Dj, Djs.
Qed.

Lemma supported_defined (v : value) : supported v = true -> v <> VUndefined.
Proof. intros H ->. discriminate. Qed.

Lemma roundtrips_members (coll : CollectionReference) (ps : list (string * value)) :
  Forall (fun p => roundtrips coll (snd p)) ps ->
  forallb (fun p => supported (snd p)) ps = true ->
  forall fuel, (fold_right (fun p m => Nat.max (height (snd p)) m) O ps < fuel)%nat ->
  exists ms,
    JSON.SerializeJSONObject (JSON.SerializeJSONProperty replacer fuel) ps = Some ms
    /\ JSON.revive_members (JSON.InternalizeJSONProperty (reviverFactory coll)) ms = ps.
Proof.
  induction 1 as [|[name x] r Hx Hr IH]; intros Hs fuel Hh; simpl in *.
  - exists []; split; reflexivity.
  - apply andb_true_iff in Hs as [Hsx Hsr].
    destruct (Hx fuel (KName name) (KName name)) as (j & Ej & Dj); [lia|].
    destruct (IH Hsr fuel) as (ms & Ems & Dms); [lia|].
    exists ((name, j) :: ms). rewrite Ej, Ems. simpl. rewrite Dj, Dms.
    split; [reflexivity|].
    destruct x; try reflexivity. discriminate.
Qed.

Lemma forallb_Forall_and {A : Type} (f g : A -> bool) (P : A -> Prop) (l : list A) :
  Forall (fun x => f x = true -> g x = true -> P x) l ->
  forallb f l = true -> forallb g l = true -> Forall P l.
Proof.
  induction 1 as [|x r Hx Hr IH]; simpl; intros Hf Hg; constructor.
  - apply andb_true_iff in Hf as [? _]; apply andb_true_iff in Hg as [? _]; auto.
  - apply andb_true_iff in Hf as [_ ?]; apply andb_true_iff in Hg as [_ ?]; auto.
Qed.

Lemma roundtrips_supported (coll : CollectionReference) (v : value) :
  supported v = true -> unambiguous coll v = true -> roundtrips coll v.
Proof.
  induction v as [ | |b|x|s|l IH|ps IH|name|sec n|a o|fs p] using value_ind';
    intros Hs Hu; try discriminate;
    intros [|fuel] k k' Hh; try lia.
  - exists JNull; split; reflexivity.
  - exists (JBool b); split; reflexivity.
  - simpl in Hs. apply andb_true_iff in Hs as [Hfin _].
    exists (JNum x); split; simpl; [now rewrite Hfin | reflexivity].
  - exists (JStr s); split; [reflexivity|].
    simpl in *. apply negb_true_iff in Hu. now rewrite Hu.
  - assert (Hl : Forall (roundtrips coll) l)
      by (eapply forallb_Forall_and; eauto).
    destruct (roundtrips_elems coll l Hl fuel O O) as (js & Ejs & Djs);
      [simpl in Hh; lia|].
    exists (JArr js); split; simpl; now rewrite ?Ejs, ?Djs.
  - assert (Hl : Forall (fun p => roundtrips coll (snd p)) ps)
      by (eapply (forallb_Forall_and (fun p => supported (snd p))
                    (fun p => unambiguous coll (snd p))); eauto).
    destruct (roundtrips_members coll ps Hl Hs fuel) as (ms & Ems & Dms);
      [simpl in Hh; lia|].
    exists (JObj ms); split; simpl; now rewrite ?Ems, ?Dms.
  - simpl in Hs. apply andb_true_iff in Hs as [H1 H2].
    exists (JStr ("$$Timestamp$$:" ++ toString sec ++ ":" ++ toString n)).
    split; [reflexivity|].
    exact (revive_replaced_timestamp coll k' k sec n H1 H2).
  - simpl in Hs. apply andb_true_iff in Hs as [H1 H2].
    exists (JStr ("$$GeoPoint$$:" ++ toString a ++ ":" ++ toString o)).
    split; [reflexivity|].
    exact (revive_replaced_geopoint coll k' k a o H1 H2).
  - simpl in Hu. apply andb_true_iff in Hu as [H1 H2].
    apply negb_true_iff in H2. apply same_firestore_eq in H1. subst fs.
    exists (JStr ("$$DocumentReference$$:" ++ p)).
    split; [reflexivity|].
    exact (revive_replaced_reference coll k' k (firestore coll) p H2).
Qed.

(** The scenario of the specification: the timestamp 1690000000.0 is
    written as "$$Timestamp$$:1690000000:0". *)
Example scenario_timestamp :
  replacer (KName "lastSeen") (VTimestamp (Finite false "169" 10) Zero)
  = VStr "$$Timestamp$$:1690000000:0"
  /\ reviverFactory users (KName "lastSeen") (VStr "$$Timestamp$$:1690000000:0")
     = VTimestamp (Finite false "169" 10) Zero.
Proof. split; reflexivity. Qed.

End CodecFacts.

(** ** The reviver over the constructors of the library *)

Module AdminFacts.

Import StrFacts NumFacts CodecSpec CodecFacts.

Section Facts.

Context `{Admin.Library}.

(** On a string the pattern matches, the reviver returns what the
    constructor makes of the instance [Helpers.reviverFactory] describes;
    any other value is returned as it is. *)
Lemma reviver_constructs (coll : CollectionReference) (k : key) (v : value) :
  Admin.reviverFactory coll k v
  = match v with
    | VStr s =>
        if symbolMatch s then Admin.construct (reviverFactory coll k v)
        else Ok v
    | _ => Ok v
    end.
Proof.
  destruct v as [ | |b|x|s|l|ps|name|sec n|a o|fs p]; try reflexivity.
  unfold Admin.reviverFactory, reviverFactory.
  destruct (symbolMatch s); [|reflexivity]. cbv zeta.
  destruct (split ":" s) as [|tag r]; [reflexivity|].
  destruct (tag =? "$$Timestamp$$"); [reflexivity|].
  destruct (tag =? "$$DocumentReference$$"); [reflexivity|].
  destruct (tag =? "$$GeoPoint$$"); reflexivity.
Qed.

(** The switch reaches the constructor of the kind whose sentinel the
    string starts with. *)
Lemma reviver_dispatch (coll : CollectionReference) (k : key) (v : value) :
  Admin.reviverFactory coll k v
  = match v with
    | VStr s =>
        match sentinel_kind s with
        | Some kd => Admin.construct (reconstruct coll kd s)
        | None => Ok v
        end
    | _ => Ok v
    end.
Proof.
  rewrite reviver_constructs.
  destruct v as [ | |b|x|s|l|ps|name|sec n|a o|fs p]; try reflexivity.
  rewrite sentinel_kind_match, reviver_by_kind. unfold revive_by_kind.
  now destruct (sentinel_kind s).
Qed.

(** An instance that is one its constructor returns is built again as it
    is. *)
Lemma construct_accepted (x : value) :
  Admin.accepted x = true ->
  match x with VArr _ | VObj _ => True | _ => Admin.construct x = Ok x end.
Proof.
  destruct x as [ | |b|n|s|l|ps|name|sec ns|a o|fs p]; try reflexivity;
    try (intros _; exact I);
    cbn [Admin.construct Admin.accepted];
    unfold Admin.new_Timestamp, Admin.new_GeoPoint, Admin.firestore_doc.
  - now intros ->.
  - now intros ->.
  - destruct (Admin.document_path p) as [q|]; [|discriminate].
    now intros ->%String.eqb_eq.
Qed.

(** *** Decoding what the replacer wrote *)

Lemma construct_replaced_timestamp (coll : CollectionReference) (k k' : key)
  (seconds nanoseconds : number) :
  is_plain_integer seconds = true -> is_plain_integer nanoseconds = true ->
  Admin.reviverFactory coll k (replacer k' (VTimestamp seconds nanoseconds))
  = Admin.new_Timestamp seconds nanoseconds.
Proof.
  intros Hs Hn. rewrite reviver_constructs.
  rewrite (revive_replaced_timestamp coll k k' seconds nanoseconds Hs Hn).
  cbn [replacer]. unfold symbolMatch. now rewrite prefix_app.
Qed.

Lemma construct_replaced_geopoint (coll : CollectionReference) (k k' : key)
  (latitude longitude : number) :
  wf latitude = true -> wf longitude = true ->
  Admin.reviverFactory coll k (replacer k' (VGeoPoint latitude longitude))
  = Admin.new_GeoPoint latitude longitude.
Proof.
  intros Ha Ho. rewrite reviver_constructs.
  rewrite (revive_replaced_geopoint coll k k' latitude longitude Ha Ho).
  cbn [replacer]. unfold symbolMatch.
  now rewrite (prefix_app "$$GeoPoint$$:"), orb_true_r.
Qed.

Lemma construct_replaced_reference (coll : CollectionReference) (k k' : key)
  (fs : Firestore) (p : string) :
  has_char ":" p = false ->
  Admin.reviverFactory coll k (replacer k' (VDocRef fs p))
  = Admin.firestore_doc (firestore coll) p.
Proof.
  intros Hp. rewrite reviver_constructs.
  rewrite (revive_replaced_reference coll k k' fs p Hp).
  cbn [replacer]. unfold symbolMatch.
  now rewrite (prefix_app "$$DocumentReference$$:"), orb_true_r.
Qed.

End Facts.

(** The checks of firebase-admin take the instances of the sample document
    and no NaN. *)
Example firebase_admin_accepts_ada :
  @Admin.accepted Admin.firebase_admin ada = true.
Proof. reflexivity. Qed.

Lemma firebase_admin_rejects_NaN (x : number) :
  @Admin.valid_timestamp Admin.firebase_admin x NaN = false
  /\ @Admin.valid_geopoint Admin.firebase_admin x NaN = false.
Proof.
  split; cbn [Admin.valid_timestamp Admin.valid_geopoint Admin.firebase_admin];
    apply andb_false_r.
Qed.

End AdminFacts.

Module Codec.

Import StrFacts NumFacts CodecSpec CodecFacts AdminFacts.

(** Re-encoding what was decoded from the sentinel of a Timestamp, of a
    GeoPoint, or of a DocumentReference without a colon in its path, gives
    the sentinel again. *)
Lemma reencode_stable (coll : CollectionReference) (k : key) (v : value) :
  supported v = true ->
  match v with
  | VTimestamp _ _ | VGeoPoint _ _ => True
  | VDocRef _ p => has_char ":" p = false
  | _ => False
  end ->
  replacer k (reviverFactory coll k (replacer k v)) = replacer k v.
Proof.
  destruct v as [ | |b|x|s|l|ps|name|sec n|a o|fs p]; intros Hs Hv;
    try contradiction; simpl in Hs.
  - apply andb_true_iff in Hs as [H1 H2].
    now rewrite revive_replaced_timestamp.
  - apply andb_true_iff in Hs as [H1 H2].
    now rewrite revive_replaced_geopoint.
  - now rewrite revive_replaced_reference.
Qed.

(** C1 (amended). For every supported value (JSON-native values, Timestamps,
    GeoPoints and DocumentReferences, nested in arrays and objects) in which
    no string starts with a sentinel and every DocumentReference belongs to
    the Firestore client of the collection and has no colon in its path,
    JSON.stringify with the replacer produces a text, and JSON.parse of that
    text with the reviver of the collection yields the value again. *)
Theorem C1_decode_encode (coll : CollectionReference) (v : value) :
  supported v = true -> unambiguous coll v = true ->
  exists j, encode v = JSON.Text j /\ decode coll j = v.
Proof.
  intros Hs Hu.
  exact (roundtrips_supported coll v Hs Hu (S (height v)) (KName "") (KName "")
           (Nat.lt_succ_diag_r _)).
Qed.

Lemma C1_decode_encode_witness :
  supported ada = true /\ unambiguous users ada = true /\
  exists j, encode ada = JSON.Text j /\ decode users j = ada.
Proof.
  split; [reflexivity|]. split; [reflexivity|].
  apply (C1_decode_encode users ada); reflexivity.
Defined.

(** C1 as stated fails on supported values: a string field that starts
    with a sentinel comes back as a Timestamp, a reference whose path has a
    colon comes back with its path cut at the colon, and a reference of
    another Firestore client comes back bound to the client of the
    collection. *)
Lemma C1_counterexample :
  (supported with_sentinel_string = true /\
   encode with_sentinel_string = JSON.Text (JObj [("note", JStr "$$Timestamp$$:1:2")]) /\
   decode users (JObj [("note", JStr "$$Timestamp$$:1:2")])
   = VObj [("note", VTimestamp (Finite false "1" 1) (Finite false "2" 1))] /\
   decode users (JObj [("note", JStr "$$Timestamp$$:1:2")]) <> with_sentinel_string)
  /\
  (supported with_colon_reference = true /\
   encode with_colon_reference
   = JSON.Text (JObj [("owner", JStr "$$DocumentReference$$:users/a:b")]) /\
   decode users (JObj [("owner", JStr "$$DocumentReference$$:users/a:b")])
   = VObj [("owner", VDocRef demo "users/a")] /\
   decode users (JObj [("owner", JStr "$$DocumentReference$$:users/a:b")])
   <> with_colon_reference)
  /\
  (supported with_foreign_reference = true /\
   encode with_foreign_reference
   = JSON.Text (JObj [("owner", JStr "$$DocumentReference$$:users/7")]) /\
   decode users (JObj [("owner", JStr "$$DocumentReference$$:users/7")])
   = VObj [("owner", VDocRef demo "users/7")] /\
   decode users (JObj [("owner", JStr "$$DocumentReference$$:users/7")])
   <> with_foreign_reference).
Proof.
  repeat split; try reflexivity; intros H; vm_compute in H; discriminate H.
Qed.

(** C4, at the failing input.  The replacer writes the DocumentReference
    "users/a:b" as "$$DocumentReference$$:users/a:b"; the reviver splits
    that text at every colon and takes the second piece, the path
    "users/a"; re-encoding the decoded reference gives
    "$$DocumentReference$$:users/a", which is not the text decoded. *)
Theorem C4_colon_reference_reencoded :
  replacer (KName "owner") (VDocRef demo "users/a:b")
  = VStr "$$DocumentReference$$:users/a:b"
  /\ reviverFactory users (KName "owner") (VStr "$$DocumentReference$$:users/a:b")
     = VDocRef demo "users/a"
  /\ replacer (KName "owner") (VDocRef demo "users/a")
     = VStr "$$DocumentReference$$:users/a"
  /\ replacer (KName "owner")
       (reviverFactory users (KName "owner")
          (replacer (KName "owner") (VDocRef demo "users/a:b")))
     <> replacer (KName "owner") (VDocRef demo "users/a:b").
Proof.
  repeat split; try reflexivity. intros H; vm_compute in H; discriminate H.
Qed.

(** C5 (amended). The reviver hands every string that starts with the
    sentinel [$$<Kind>$$:] of a kind in Timestamp, GeoPoint,
    DocumentReference to the constructor of that kind, whatever wrote the
    string, and returns what the constructor returns: the Tagged Value when
    the constructor accepts the fields read from the string, an exception
    when it rejects them.  On the string the replacer writes for a Timestamp
    of whole seconds and nanoseconds, for a GeoPoint, and for a
    DocumentReference without a colon in its path, the constructor gets
    exactly those fields.  Every other value, a string that starts with no
    sentinel or a value that is not a string, is returned as it is. *)
Theorem C5_reviver_by_constructor (lib : Admin.Library)
  (coll : CollectionReference) (k : key) (v : value)
  (seconds nanoseconds latitude longitude : number) (p : string) :
  is_plain_integer seconds = true -> is_plain_integer nanoseconds = true ->
  wf latitude = true -> wf longitude = true -> has_char ":" p = false ->
  match v with
  | VStr s =>
      match sentinel_kind s with
      | Some Timestamp =>
          exists a b, Admin.reviverFactory coll k v = Admin.new_Timestamp a b
      | Some GeoPoint =>
          exists a b, Admin.reviverFactory coll k v = Admin.new_GeoPoint a b
      | Some DocumentReference =>
          exists q, Admin.reviverFactory coll k v
                    = Admin.firestore_doc (firestore coll) q
      | None => Admin.reviverFactory coll k v = Ok v
      end
  | _ => Admin.reviverFactory coll k v = Ok v
  end
  /\ Admin.reviverFactory coll k
       (VStr ("$$Timestamp$$:" ++ toString seconds ++ ":" ++ toString nanoseconds))
     = Admin.new_Timestamp seconds nanoseconds
  /\ Admin.reviverFactory coll k
       (VStr ("$$GeoPoint$$:" ++ toString latitude ++ ":" ++ toString longitude))
     = Admin.new_GeoPoint latitude longitude
  /\ Admin.reviverFactory coll k (VStr ("$$DocumentReference$$:" ++ p))
     = Admin.firestore_doc (firestore coll) p.
Proof.
  intros Hs Hn Ha Ho Hp. split; [|split; [|split]].
  - rewrite reviver_dispatch.
    destruct v as [ | |b|x|s|l|ps|name|sec n|a o|fs q]; try reflexivity.
    destruct (sentinel_kind s) as [[]|]; cbn [reconstruct Admin.construct];
      eauto.
  - exact (construct_replaced_timestamp coll k k seconds nanoseconds Hs Hn).
  - exact (construct_replaced_geopoint coll k k latitude longitude Ha Ho).
  - exact (construct_replaced_reference coll k k (firestore coll) p Hp).
Qed.

Lemma C5_reviver_by_constructor_witness :
  is_plain_integer (Finite false "169" 10) = true
  /\ is_plain_integer Zero = true
  /\ wf (Finite false "593293" 2) = true
  /\ wf (Finite true "15" (-6)) = true
  /\ has_char ":" "users/7" = false
  /\ @Admin.reviverFactory Admin.firebase_admin users (KName "lastSeen")
       (VStr "$$Timestamp$$:1690000000:0")
     = Ok (VTimestamp (Finite false "169" 10) Zero).
Proof.
  split; [reflexivity|]. split; [reflexivity|]. split; [reflexivity|].
  split; [reflexivity|]. split; [reflexivity|].
  exact (proj1 (proj2
    (C5_reviver_by_constructor Admin.firebase_admin users (KName "lastSeen")
       (VStr "$$Timestamp$$:1690000000:0")
       (Finite false "169" 10) Zero (Finite false "593293" 2)
       (Finite true "15" (-6)) "users/7"
       eq_refl eq_refl eq_refl eq_refl eq_refl))).
Defined.

(** C5 as stated fails on strings that start with a sentinel and hold no
    fields the constructor takes: firebase-admin rejects the seconds NaN
    that "hello" is read as, and the path "users", which names a collection;
    the reviver throws, and so does the decoding of an entry that holds
    such a string. *)
Lemma C5_counterexample :
  (sentinel_kind Admin.greeting = Some Timestamp
   /\ @Admin.reviverFactory Admin.firebase_admin users (KName "note")
        (VStr Admin.greeting)
      = Throw (Error "Timestamp: argument is not valid")
   /\ @Admin.decode Admin.firebase_admin users Admin.entry_with_greeting
      = Throw (Error "Timestamp: argument is not valid"))
  /\
  (sentinel_kind Admin.mention = Some DocumentReference
   /\ @Admin.reviverFactory Admin.firebase_admin users (KName "note")
        (VStr Admin.mention)
      = Throw (Error "documentPath: argument is not valid")).
Proof. repeat split. Qed.

End Codec.

(** ** The converter *)

Module ConverterFacts.

Lemma lookup_set_prop {A : Type} (name k : string) (x : A) (ps : list (string * A)) :
  lookup name (set_prop k x ps)
  = if k =? name then Some x else lookup name ps.
Proof.
  induction ps as [|[k' y] r IH]; simpl.
  - reflexivity.
  - destruct (k' =? k) eqn:E; simpl.
    + apply String.eqb_eq in E; subst k'. now destruct (k =? name).
    + destruct (k' =? name) eqn:E'; [|exact IH].
      destruct (k =? name) eqn:E''; [|reflexivity].
      apply String.eqb_eq in E', E''. subst. now rewrite String.eqb_refl in E.
Qed.

Lemma has_prop_set_prop {A : Type} (name k : string) (x : A) (ps : list (string * A)) :
  has_prop name (set_prop k x ps) = (k =? name) || has_prop name ps.
Proof.
  unfold has_prop. rewrite lookup_set_prop. now destruct (k =? name).
Qed.

Lemma has_prop_spread {A : Type} (name : string) (source target : list (string * A)) :
  has_prop name (spread target source) = has_prop name target || has_prop name source.
Proof.
  unfold spread. revert target.
  induction source as [|[k x] r IH]; intros target; simpl.
  - now rewrite orb_false_r.
  - assert (Hh : has_prop name ((k, x) :: r) = (k =? name) || has_prop name r)
      by (unfold has_prop; simpl; now destruct (k =? name)).
    rewrite IH, has_prop_set_prop, Hh.
    now destruct (k =? name), (has_prop name target), (has_prop name r).
Qed.

Lemma lookup_remove_prop {A : Type} (name k : string) (ps : list (string * A)) :
  lookup name (remove_prop k ps)
  = if k =? name then None else lookup name ps.
Proof.
  unfold remove_prop.
  induction ps as [|[k' y] r IH]; simpl.
  - now destruct (k =? name).
  - destruct (k' =? k) eqn:E; simpl.
    + apply String.eqb_eq in E; subst k'. rewrite IH. now destruct (k =? name).
    + rewrite IH. destruct (k' =? name) eqn:E'; [|reflexivity].
      destruct (k =? name) eqn:E''; [|reflexivity].
      apply String.eqb_eq in E', E''. subst. now rewrite String.eqb_refl in E.
Qed.

(** The library fields of a decoded document: what the stored data has
    under the name, else what the snapshot says. *)
Lemma lookup_spread_new {A : Type} (name : string) (source target : list (string * A)) :
  lookup name (spread target source)
  = match lookup name (rev source) with
    | Some x => Some x
    | None => lookup name target
    end.
Proof.
  unfold spread. revert target.
  induction source as [|[k x] r IH]; intros target; simpl.
  - reflexivity.
  - rewrite IH, lookup_set_prop.
    assert (Happ : forall (l1 l2 : list (string * A)),
               lookup name (l1 ++ l2)%list
               = match lookup name l1 with
                 | Some y => Some y
                 | None => lookup name l2
                 end).
    { induction l1 as [|[k1 y1] l1 IH1]; intros l2; simpl; [reflexivity|].
      now destruct (k1 =? name). }
    rewrite Happ. simpl.
    destruct (lookup name (rev r)); [reflexivity|].
    now destruct (k =? name).
Qed.

(** C3. A document that [fromFirestore] produces has the fields [id] and
    [collection], whatever the stored data holds, and the data that
    [toFirestore] hands to the store has neither. *)
Theorem C3_library_fields (snap : QueryDocumentSnapshot) (doc : document) :
  has_prop "id" (fromFirestore snap) = true
  /\ has_prop "collection" (fromFirestore snap) = true
  /\ has_prop "id" (toFirestore doc) = false
  /\ has_prop "collection" (toFirestore doc) = false.
Proof.
  unfold fromFirestore, toFirestore.
  rewrite !has_prop_spread. unfold has_prop.
  rewrite !lookup_remove_prop. simpl. auto.
Qed.

End ConverterFacts.

(** ** The data source *)

Module DataSourceFacts.

Import DataSource.

Section Facts.

Context {S C : Type} `{DocumentStore S}.

Lemma effects_app (a b : list event) :
  effects (a ++ b)%list = (effects a ++ effects b)%list.
Proof. apply filter_app. Qed.

(** Unfolding the monad of a run. *)
Ltac run :=
  unfold deleted_then_invalidated, written_then_primed, queried_then_primed,
    ends_with, deleteOne, updateOne, updateOnePartial, createOne,
    findManyByQuery, prime_result, data, on_store, call, debug, bind, emit,
    run_store, run_action, ret, throw, of_result;
  cbv zeta; cbn [fst snd store cache_tiers trace].

Ltac norm :=
  cbv beta iota zeta; cbn [fst snd store cache_tiers trace option_map].

(** Case analysis on what the store, the caching methods and the options
    answer, in the order of the run. *)
Ltac cases :=
  norm;
  repeat match goal with
  | |- context [logger ?o] => destruct (logger o); norm
  | |- context [truthy (dataLoader ?t)] => destruct (truthy (dataLoader t)); norm
  | |- context [store_query ?q ?st] =>
      destruct (store_query q st) as [[?|?] ?]; norm
  | |- context [store_delete ?c ?p ?st] =>
      destruct (store_delete c p st) as [[?|?] ?]; norm
  | |- context [store_add ?c ?d ?st] =>
      destruct (store_add c d st) as [[?|?] ?]; norm
  | |- context [store_set ?c ?p ?d ?m ?st] =>
      destruct (store_set c p d m st) as [[?|?] ?]; norm
  | |- context [store_get ?c ?p ?st] =>
      destruct (store_get c p st) as [[[?|]|?] ?]; norm
  | |- context [primeLoader ?t ?i ?l ?sc] =>
      destruct (primeLoader t i l sc) as [[[]|?] [? ?]]; norm
  | |- context [deleteFromCacheById ?t ?i ?sc] =>
      destruct (deleteFromCacheById t i sc) as [[[]|?] [? ?]]; norm
  end.

Ltac finish :=
  cbn [fst snd store cache_tiers trace];
  repeat split; try reflexivity;
  rewrite ?effects_app; cbn [effects filter is_effect app];
  rewrite ?app_nil_r, <- ?app_assoc; reflexivity.

Lemma deleteOne_spec (this : @FirestoreDataSource S C) (id : string) (w : @world S C) :
  deleted_then_invalidated this id w (deleteOne this id w).
Proof.
  run. cases; finish.
Qed.

Lemma updateOne_spec (this : @FirestoreDataSource S C) (doc : document) (w : @world S C) :
  written_then_primed this
    (SetDoc (field "id" doc) (toFirestore doc) false)
    (store_set (collection this) (field "id" doc) (toFirestore doc) false)
    (fun _ => field "id" doc) None w
    (updateOne this doc w).
Proof.
  run. cases; finish.
Qed.

Lemma updateOnePartial_spec (this : @FirestoreDataSource S C) (id : string)
  (doc : document) (w : @world S C) :
  written_then_primed this
    (SetDoc (VStr id) (toFirestore doc) true)
    (store_set (collection this) (VStr id) (toFirestore doc) true)
    (fun _ => VStr id) None w
    (updateOnePartial this id doc w).
Proof.
  run. cases; finish.
Qed.

Lemma createOne_new_spec (this : @FirestoreDataSource S C) (newDoc : document)
  (ttl : option number) (w : @world S C) :
  has_prop "id" newDoc = false ->
  written_then_primed this
    (Add (toFirestore newDoc))
    (store_add (collection this) (toFirestore newDoc))
    VStr ttl w
    (createOne this newDoc ttl w).
Proof.
  intros Hid. unfold createOne. rewrite Hid.
  run. cases; finish.
Qed.

Lemma member_defined (v : value) (name : string) :
  v <> VUndefined -> v <> VNull -> exists x, member v name = Ok x.
Proof.
  intros Hu Hn. destruct v; try contradiction; simpl; eauto.
  destruct (lookup name props); eauto.
Qed.

Example a_document_rejected :
  member Sample.a_document "id" = Ok (VStr "42")
  /\ member Sample.a_document "doc" = Ok VUndefined
  /\ lacks_capability Sample.a_document = true.
Proof. repeat split. Qed.

(** The [&&] chain is truthy only when the four properties are. *)
Lemma isFirestoreCollection_truthy (v : value) (a b c d : value) :
  member v "id" = Ok a -> member v "path" = Ok b ->
  member v "firestore" = Ok c -> member v "doc" = Ok d ->
  exists r, isFirestoreCollection v = Ok r
            /\ truthy r = truthy a && truthy b && truthy c && truthy d.
Proof.
  intros Ha Hb Hc Hd. unfold isFirestoreCollection, and_then.
  rewrite Ha, Hb, Hc, Hd.
  destruct (truthy a) eqn:Ea, (truthy b) eqn:Eb, (truthy c) eqn:Ec;
    repeat (progress (cbv beta iota; rewrite ?Ea, ?Eb, ?Ec));
    eexists; (split; [reflexivity|]); rewrite ?Ea, ?Eb, ?Ec; reflexivity.
Qed.

Lemma constructor_ok (arg : value) (opts : FirestoreDataSourceOptions)
  (w w' : @world S C) (this : @FirestoreDataSource S C) :
  constructor arg opts w = (Ok this, w') ->
  exists converted, this = constructed converted opts.
Proof.
  unfold constructor, debug, bind, emit, ret, throw, of_result, withConverter.
  destruct (logger opts); cbv beta iota;
    destruct (isFirestoreCollection arg) as [ok|e]; try discriminate;
    destruct (truthy ok); cbn [negb]; try discriminate;
    destruct (member arg "withConverter") as [[]|e]; try discriminate;
    destruct (store_with_converter arg) as [converted|e]; try discriminate;
    intros [= <- _]; now exists converted.
Qed.

End Facts.

End DataSourceFacts.

Module DataSourceClaims.

Import DataSource DataSourceFacts.

Section Claims.

Context {S C : Type} `{DocumentStore S}.

(** C6. Every mutating operation writes to the store first and then calls
    the caching method: [deleteOne] deletes the document and, if the store
    did not fail, calls [deleteFromCacheById] on the id; [updateOne],
    [updateOnePartial] and [createOne] (which sets the document when it has
    an [id] and adds it when it has none) do the store write, read the
    document back and, whenever the store returns a document, call
    [primeLoader] on it. *)
Theorem C6_store_then_cache (this : @FirestoreDataSource S C) (w : @world S C) :
  (forall id, deleted_then_invalidated this id w (deleteOne this id w))
  /\ (forall doc,
        written_then_primed this
          (SetDoc (field "id" doc) (toFirestore doc) false)
          (store_set (collection this) (field "id" doc) (toFirestore doc) false)
          (fun _ => field "id" doc) None w
          (updateOne this doc w))
  /\ (forall id doc,
        written_then_primed this
          (SetDoc (VStr id) (toFirestore doc) true)
          (store_set (collection this) (VStr id) (toFirestore doc) true)
          (fun _ => VStr id) None w
          (updateOnePartial this id doc w))
  /\ (forall newDoc ttl,
        if has_prop "id" newDoc then
          written_then_primed this
            (SetDoc (field "id" newDoc) (toFirestore newDoc) false)
            (store_set (collection this) (field "id" newDoc) (toFirestore newDoc) false)
            (fun _ => field "id" newDoc) None w
            (createOne this newDoc ttl w)
        else
          written_then_primed this
            (Add (toFirestore newDoc))
            (store_add (collection this) (toFirestore newDoc))
            VStr ttl w
            (createOne this newDoc ttl w)).
Proof.
  split; [intros; apply deleteOne_spec|].
  split; [intros; apply updateOne_spec|].
  split; [intros; apply updateOnePartial_spec|].
  intros newDoc ttl. destruct (has_prop "id" newDoc) eqn:E.
  - unfold createOne. rewrite E. apply updateOne_spec.
  - now apply createOne_new_spec.
Qed.

(** C7. Constructing the data source on a value that lacks one of the
    capabilities [id], [path], [firestore] and [doc] throws, in the
    constructor: a TypeError when the value is [undefined] or [null], else
    the error that asks for a Firestore collection; the store and the cache
    tiers are as they were. *)
Theorem C7_constructor_rejects (arg : value) (opts : FirestoreDataSourceOptions)
  (w : @world S C) :
  lacks_capability arg = true ->
  fst (constructor arg opts w)
  = Throw (match arg with
           | VUndefined | VNull =>
               TypeError "Cannot read properties of undefined or null: id"
           | _ =>
               Error "FirestoreDataSource must be created with a Firestore collection (from @google-cloud/firestore)"
           end)
  /\ store (snd (constructor arg opts w)) = store w
  /\ cache_tiers (snd (constructor arg opts w)) = cache_tiers w.
Proof.
  intros Hl.
  assert (Hcases : arg = VUndefined \/ arg = VNull
                   \/ (arg <> VUndefined /\ arg <> VNull)).
  { destruct arg; auto; right; right; split; discriminate. }
  unfold constructor, debug, bind, emit, ret, throw, of_result.
  destruct Hcases as [->|[->|[Hu Hn]]].
  - destruct (logger opts); simpl; auto.
  - destruct (logger opts); simpl; auto.
  - destruct (member_defined arg "id" Hu Hn) as [a Ha].
    destruct (member_defined arg "path" Hu Hn) as [b Hb].
    destruct (member_defined arg "firestore" Hu Hn) as [c Hc].
    destruct (member_defined arg "doc" Hu Hn) as [d Hd].
    destruct (isFirestoreCollection_truthy arg a b c d Ha Hb Hc Hd)
      as (r & Er & Tr).
    assert (Hf : truthy r = false).
    { rewrite Tr. unfold lacks_capability in Hl. simpl in Hl.
      rewrite Ha, Hb, Hc, Hd in Hl.
      destruct (truthy a), (truthy b), (truthy c), (truthy d);
        try reflexivity; discriminate. }
    rewrite Er.
    destruct (logger opts); cbv beta iota; rewrite Hf; simpl;
      (split; [|split; reflexivity]);
      destruct arg; try reflexivity; contradiction.
Qed.

(** C8 (amended). [findManyByQuery] always executes the query against the
    store, calls no caching method that reads, and returns exactly the
    documents of the query snapshot; when the data source has a
    [dataLoader], as after [initialize], it passes those documents to
    [primeLoader] with the given ttl; when it has none, nothing is
    primed. *)
Theorem C8_query_then_prime (this : @FirestoreDataSource S C)
  (queryFunction : value -> value) (ttl : option number) (w : @world S C) :
  queried_then_primed this (queryFunction (collection this)) ttl w
    (findManyByQuery this queryFunction ttl w).
Proof.
  unfold queried_then_primed, findManyByQuery, on_store, call, debug, bind,
    emit, run_store, run_action, ret, ends_with.
  cbv zeta; cbn [fst snd store cache_tiers trace].
  destruct (store_query (queryFunction (collection this)) (store w))
    as [[qSnap|e] s1]; cbv beta iota; cbn [fst snd store cache_tiers trace].
  - (* the store answered: prime if there is a loader, log, return *)
    destruct (truthy (dataLoader this)); cbv beta iota;
      cbn [fst snd store cache_tiers trace].
    + destruct (primeLoader this (Many (map fromFirestore (docs qSnap))) ttl
                  (s1, cache_tiers w)) as [[[]|e] [s2 c2]];
        destruct (logger (options this)); cbv beta iota;
        cbn [fst snd store cache_tiers trace];
        repeat split; rewrite ?effects_app; cbn [effects filter is_effect app];
        rewrite ?app_nil_r, <- ?app_assoc; reflexivity.
    + destruct (logger (options this)); cbv beta iota;
        cbn [fst snd store cache_tiers trace];
        repeat split; rewrite ?effects_app; cbn [effects filter is_effect app];
        rewrite ?app_nil_r, <- ?app_assoc; reflexivity.
  - (* the store failed: so does the run, nothing else happened *)
    repeat split; rewrite ?effects_app; cbn [effects filter is_effect app];
      reflexivity.
Qed.

(** C9. For a document that has an [id] field, [createOne] with any ttl is
    [updateOne]: the same result, the same store, the same cache tiers and
    the same trace, in which [primeLoader] is called without the ttl. *)
Theorem C9_createOne_with_id (this : @FirestoreDataSource S C)
  (newDoc : document) (ttl : option number) (w : @world S C) :
  has_prop "id" newDoc = true ->
  createOne this newDoc ttl w = updateOne this newDoc w
  /\ createOne this newDoc ttl w = createOne this newDoc None w
  /\ written_then_primed this
       (SetDoc (field "id" newDoc) (toFirestore newDoc) false)
       (store_set (collection this) (field "id" newDoc) (toFirestore newDoc) false)
       (fun _ => field "id" newDoc) None w
       (createOne this newDoc ttl w).
Proof.
  intros Hid. unfold createOne. rewrite Hid.
  repeat split; try apply updateOne_spec.
Qed.

(** C10. On a data source that the constructor returned, each of
    [findOneById], [findManyByIds], [deleteFromCacheById] and [primeLoader]
    throws the error 'DataSource not initialized' and leaves the store and
    the cache tiers as they were; after [initialize] the four are the
    operations that [createCachingMethods] returned for the collection, the
    given cache (or a new in-memory one) and the options. *)
Theorem C10_placeholders_until_initialize (arg : value)
  (opts : FirestoreDataSourceOptions) (w w' : @world S C)
  (this : @FirestoreDataSource S C) :
  constructor arg opts w = (Ok this, w') ->
  (forall id ttl sc,
     findOneById this id ttl sc = (Throw (Error "DataSource not initialized"), sc))
  /\ (forall ids ttl sc,
        findManyByIds this ids ttl sc
        = (Throw (Error "DataSource not initialized"), sc))
  /\ (forall id sc,
        deleteFromCacheById this id sc
        = (Throw (Error "DataSource not initialized"), sc))
  /\ (forall item ttl sc,
        primeLoader this item ttl sc
        = (Throw (Error "DataSource not initialized"), sc))
  /\ (forall createCachingMethods InMemoryLRUCache ctx cache,
        let ready := initialize createCachingMethods InMemoryLRUCache this ctx cache in
        let methods :=
          createCachingMethods (collection this)
            (or_default cache InMemoryLRUCache) (options this) in
        findOneById ready = m_findOneById methods
        /\ findManyByIds ready = m_findManyByIds methods
        /\ deleteFromCacheById ready = m_deleteFromCacheById methods
        /\ primeLoader ready = m_primeLoader methods).
Proof.
  intros Hc. apply constructor_ok in Hc. destruct Hc as [converted ->].
  repeat split.
Qed.

End Claims.

Import Sample.

Lemma C7_constructor_rejects_witness :
  lacks_capability not_a_collection = true
  /\ fst (constructor not_a_collection console start)
     = Throw (Error "FirestoreDataSource must be created with a Firestore collection (from @google-cloud/firestore)").
Proof.
  split; [reflexivity|].
  apply (C7_constructor_rejects not_a_collection console start). reflexivity.
Defined.

(** C8 as stated fails before [initialize]: the query on the constructed
    data source returns Ada's document and nothing is primed, the cache
    tier stays empty and no caching method is called. *)
Lemma C8_counterexample :
  findManyByQuery uninitialized all_users None start
  = (Ok [ada],
     {| store := store start;
        cache_tiers := [];
        trace := [EStore (RunQuery users);
                  ELog (FindManyByQueryComplete 1
                          (VTimestamp (Finite false "169" 10) Zero))] |})
  /\ ~ In (ECache (PrimeLoader (Many [ada]) None))
         (trace (snd (findManyByQuery uninitialized all_users None start))).
Proof.
  split; [reflexivity|].
  vm_compute. intros [H|[H|[]]]; discriminate H.
Qed.

Lemma C9_createOne_with_id_witness :
  has_prop "id" ada = true
  /\ createOne initialized ada (Some (Finite false "6" 2)) start
     = updateOne initialized ada start.
Proof.
  split; [reflexivity|].
  apply (C9_createOne_with_id initialized ada (Some (Finite false "6" 2)) start).
  reflexivity.
Defined.

Lemma C10_placeholders_until_initialize_witness :
  constructor users console start
  = (Ok uninitialized,
     {| store := store start; cache_tiers := []; trace := [ELog Started] |})
  /\ primeLoader uninitialized (One ada) None (store start, [])
     = (Throw (Error "DataSource not initialized"), (store start, [])).
Proof.
  split; [reflexivity|].
  apply (C10_placeholders_until_initialize users console start
           {| store := store start; cache_tiers := []; trace := [ELog Started] |}
           uninitialized).
  reflexivity.
Defined.

End DataSourceClaims.

(** ** The Batching Loader *)

Module LoaderFacts.

Import Loader.

Lemma invariant_new : invariant new.
Proof. split; [reflexivity | discriminate]. Qed.

Lemma count_occ_last (ids : list string) (id0 id : string) :
  count_occ string_dec (ids ++ [id0]) id
  = (count_occ string_dec ids id + (if string_dec id0 id then 1 else 0))%nat.
Proof.
  rewrite count_occ_app. simpl. now destruct (string_dec id0 id).
Qed.

Lemma load_memoized (id0 : string) (l : loader) :
  lookup id0 (memo (snd (load id0 l))) = Some (fst (load id0 l)).
Proof.
  unfold load. destruct (lookup id0 (memo l)) eqn:E; simpl.
  - exact E.
  - now rewrite String.eqb_refl.
Qed.

Lemma load_keeps (id0 id : string) (p : nat) (l : loader) :
  lookup id (memo l) = Some p -> lookup id (memo (snd (load id0 l))) = Some p.
Proof.
  intros Hp. unfold load. destruct (lookup id0 (memo l)) eqn:E; simpl.
  - exact Hp.
  - destruct (id0 =? id) eqn:E'; [|exact Hp].
    apply String.eqb_eq in E'. subst. congruence.
Qed.

Lemma load_invariant (id0 : string) (l : loader) :
  invariant l -> invariant (snd (load id0 l)).
Proof.
  intros Hl. unfold load.
  destruct (lookup id0 (memo l)) eqn:E; simpl; [exact Hl|].
  destruct Hl as [Honce Hdue].
  split; unfold fetched, wanted; simpl.
  - intros id. rewrite map_app. cbn [map fst]. rewrite count_occ_last. simpl.
    specialize (Honce id). unfold fetched, wanted in Honce.
    destruct (string_dec id0 id) as [->|Hne].
    + rewrite String.eqb_refl. rewrite E in Honce. lia.
    + apply String.eqb_neq in Hne. rewrite Hne. lia.
  - intros id p. destruct (id0 =? id) eqn:E'.
    + apply String.eqb_eq in E'. subst id. intros [= <-].
      left. apply in_or_app. right. now left.
    + intros Hp. destruct (Hdue id p Hp) as [Hq|Hr]; [|now right].
      left. apply in_or_app. now left.
Qed.

Lemma await_app (p : nat) (a b : list (nat * option document)) :
  await p (a ++ b)
  = match await p a with
    | Some r => Some r
    | None => await p b
    end.
Proof.
  induction a as [|[q r] a IH]; simpl; [reflexivity|].
  now destruct (Nat.eqb q p).
Qed.

Lemma await_batch (found : string -> option document) (q : list (string * nat))
  (id : string) (p : nat) :
  In (id, p) q ->
  exists r, await p (map (fun e => (snd e, found (fst e))) q) = Some r.
Proof.
  induction q as [|[id' p'] q IH]; simpl; [contradiction|].
  intros [[= -> ->]|Hin].
  - rewrite Nat.eqb_refl. eauto.
  - destruct (Nat.eqb p' p); eauto.
Qed.

Lemma dispatch_invariant (found : string -> option document) (l : loader) :
  invariant l -> invariant (dispatch found l) /\ queue (dispatch found l) = [].
Proof.
  intros Hl. unfold dispatch.
  destruct (queue l) as [|e q] eqn:Eq; [split; [exact Hl | exact Eq]|].
  destruct Hl as [Honce Hdue].
  split; [|reflexivity].
  split; unfold fetched, wanted; simpl.
  - intros id. specialize (Honce id). unfold fetched, wanted in Honce.
    rewrite Eq in Honce. simpl in Honce.
    rewrite concat_app, count_occ_app. simpl. rewrite app_nil_r. lia.
  - intros id p Hp. right.
    destruct (Hdue id p Hp) as [Hq|[r Hr]].
    + rewrite Eq in Hq.
      change ((snd e, found (fst e)) :: map (fun e0 => (snd e0, found (fst e0))) q)
        with (map (fun e0 => (snd e0, found (fst e0))) (e :: q)).
      rewrite await_app. destruct (await p (settled l)); eauto.
      now apply (await_batch found (e :: q) id p).
    + rewrite await_app, Hr. eauto.
Qed.

Lemma dispatch_memo (found : string -> option document) (l : loader) :
  memo (dispatch found l) = memo l.
Proof. unfold dispatch. now destruct (queue l). Qed.

Lemma loads_spec (ids : list string) (l : loader) :
  invariant l ->
  invariant (snd (loads ids l))
  /\ map fst (fst (loads ids l)) = ids
  /\ answered (fst (loads ids l)) (snd (loads ids l))
  /\ (forall id p, lookup id (memo l) = Some p ->
                   lookup id (memo (snd (loads ids l))) = Some p).
Proof.
  revert l; induction ids as [|id0 ids IH]; intros l Hl; simpl.
  - split; [exact Hl|]. split; [reflexivity|]. split; [intros id p []|auto].
  - destruct (load id0 l) as [p0 l1] eqn:E0.
    assert (Hl1 : invariant l1)
      by (change l1 with (snd (p0, l1)); rewrite <- E0; now apply load_invariant).
    destruct (IH l1 Hl1) as (Hi & Hm & Ha & Hk).
    destruct (loads ids l1) as [ps l2]; simpl in *.
    split; [exact Hi|]. split; [now rewrite Hm|]. split.
    + intros id p [[= <- <-]|Hin]; [|now apply Ha].
      apply Hk.
      change p0 with (fst (p0, l1)); change l1 with (snd (p0, l1)) at 1.
      rewrite <- E0. apply load_memoized.
    + intros id p Hp. apply Hk.
      change l1 with (snd (p0, l1)); rewrite <- E0. now apply load_keeps.
Qed.

Lemma lifetime_spec (ticks : list tick) (l : loader) :
  invariant l -> queue l = [] ->
  invariant (snd (lifetime ticks l))
  /\ queue (snd (lifetime ticks l)) = []
  /\ map fst (fst (lifetime ticks l)) = List.concat (map fst ticks)
  /\ answered (fst (lifetime ticks l)) (snd (lifetime ticks l))
  /\ (forall id p, lookup id (memo l) = Some p ->
                   lookup id (memo (snd (lifetime ticks l))) = Some p).
Proof.
  revert l; induction ticks as [|[ids found] ticks IH]; intros l Hl Hq; simpl.
  - split; [exact Hl|]. split; [exact Hq|]. split; [reflexivity|].
    split; [intros id p []|auto].
  - unfold run_tick; simpl.
    destruct (loads_spec ids l Hl) as (Hi1 & Hm1 & Ha1 & Hk1).
    destruct (loads ids l) as [ps l1]; simpl in *.
    destruct (dispatch_invariant found l1 Hi1) as [Hi2 Hq2].
    destruct (IH (dispatch found l1) Hi2 Hq2) as (Hi & Hq' & Hm & Ha & Hk).
    destruct (lifetime ticks (dispatch found l1)) as [qs l2]; simpl in *.
    split; [exact Hi|]. split; [exact Hq'|].
    split; [now rewrite map_app, Hm1, Hm|]. split.
    + intros id p Hin. apply in_app_or in Hin as [Hin|Hin]; [|now apply Ha].
      apply Hk. rewrite dispatch_memo. now apply Ha1.
    + intros id p Hp. apply Hk. rewrite dispatch_memo. now apply Hk1.
Qed.

(** C2.  In the lifetime of the loader of one request, whatever the ticks
    and the other ids asked for, an id that [load] was called on (any number
    of times, in one tick or in several) was asked of the store exactly
    once, every call got the same promise, and that promise is resolved
    with one result. *)
Theorem C2_one_fetch_per_id (ticks : list tick) (id : string) :
  In id (List.concat (map fst ticks)) ->
  fetched id (snd (lifetime ticks new)) = 1%nat
  /\ exists p r,
       (forall q, In (id, q) (fst (lifetime ticks new)) -> q = p)
       /\ In (id, p) (fst (lifetime ticks new))
       /\ await p (settled (snd (lifetime ticks new))) = Some r.
Proof.
  intros Hin.
  destruct (lifetime_spec ticks new invariant_new eq_refl)
    as ([Honce Hdue] & Hq & Hm & Ha & _).
  rewrite <- Hm in Hin. apply in_map_iff in Hin as ([id' p] & Ei & Hp).
  simpl in Ei; subst id'.
  pose proof (Ha id p Hp) as Hmemo.
  split.
  - specialize (Honce id). unfold wanted in Honce.
    rewrite Hq, Hmemo in Honce. simpl in Honce. lia.
  - destruct (Hdue id p Hmemo) as [Hw|[r Hr]].
    + rewrite Hq in Hw. contradiction.
    + exists p, r. repeat split; auto.
      intros q Hq'. specialize (Ha id q Hq'). congruence.
Qed.

Lemma C2_one_fetch_per_id_witness :
  In "42" (List.concat (map fst request))
  /\ fetched "42" (snd (lifetime request new)) = 1%nat.
Proof.
  split; [simpl; left; reflexivity|].
  apply (C2_one_fetch_per_id request "42"). simpl; left; reflexivity.
Defined.

Example request_runs :
  lifetime request new
  = ([("42", 0); ("7", 1); ("42", 0); ("42", 0); ("42", 0); ("8", 2)]%nat,
     {| memo := [("8", 2); ("7", 1); ("42", 0)]%nat;
        queue := [];
        settled := [(0, Some ada); (1, None); (2, None)]%nat;
        fetches := [["42"; "7"]; ["8"]];
        next := 3 |}).
Proof. reflexivity. Qed.

End LoaderFacts.

(** ** More on the codec *)

Module CodecMore.

Import StrFacts NumFacts CodecSpec CodecFacts AdminFacts PlainJson.

(** Induction on JSON data, through the arrays and the objects. *)
Lemma json_ind' (P : json -> Prop) :
  P JNull -> (forall b, P (JBool b)) -> (forall x, P (JNum x)) ->
  (forall s, P (JStr s)) ->
  (forall l, Forall P l -> P (JArr l)) ->
  (forall ms, Forall (fun m => P (snd m)) ms -> P (JObj ms)) ->
  forall j, P j.
Proof.
  intros Hn Hb Hx Hs Ha Ho.
  fix IH 1. intros [ |b|x|s|l|ms].
  - exact Hn.
  - apply Hb.
  - apply Hx.
  - apply Hs.
  - apply Ha. induction l as [|x r IHr]; constructor; [apply IH | exact IHr].
  - apply Ho. induction ms as [|[k x] r IHr]; constructor; [apply IH | exact IHr].
Qed.

(** *** Decoding, with the constructors that throw *)

Section Checked.

Context `{Admin.Library}.

Lemma decode_string (coll : CollectionReference) (k : key) (s : string) :
  Admin.accepted (reviverFactory coll k (VStr s)) = true ->
  Admin.reviverFactory coll k (VStr s) = Ok (reviverFactory coll k (VStr s)).
Proof.
  rewrite reviver_dispatch, reviver_by_kind. unfold revive_by_kind.
  destruct (sentinel_kind s) as [kd|]; [|reflexivity].
  intros Ha. apply construct_accepted in Ha. now destruct kd.
Qed.

Lemma decode_elems (coll : CollectionReference) (l : list json) :
  Forall (fun j => forall k,
            Admin.accepted (JSON.InternalizeJSONProperty (reviverFactory coll) k j)
            = true ->
            Admin.InternalizeJSONProperty (Admin.reviverFactory coll) k j
            = Ok (JSON.InternalizeJSONProperty (reviverFactory coll) k j)) l ->
  forall i,
    forallb Admin.accepted
      (JSON.revive_elems (JSON.InternalizeJSONProperty (reviverFactory coll)) i l)
    = true ->
    Admin.revive_elems
      (Admin.InternalizeJSONProperty (Admin.reviverFactory coll)) i l
    = Ok (JSON.revive_elems
            (JSON.InternalizeJSONProperty (reviverFactory coll)) i l).
Proof.
  induction 1 as [|x r Hx Hr IH]; intros i Ha;
    cbn [Admin.revive_elems JSON.revive_elems forallb] in *; [reflexivity|].
  apply andb_true_iff in Ha as [Ax Ar].
  now rewrite (Hx (KIndex i) Ax), (IH (S i) Ar).
Qed.

Lemma decode_members (coll : CollectionReference) (ms : list (string * json)) :
  Forall (fun m => forall k,
            Admin.accepted
              (JSON.InternalizeJSONProperty (reviverFactory coll) k (snd m))
            = true ->
            Admin.InternalizeJSONProperty (Admin.reviverFactory coll) k (snd m)
            = Ok (JSON.InternalizeJSONProperty (reviverFactory coll) k (snd m)))
         ms ->
  forallb (fun p => Admin.accepted (snd p))
    (JSON.revive_members (JSON.InternalizeJSONProperty (reviverFactory coll)) ms)
  = true ->
  Admin.revive_members
    (Admin.InternalizeJSONProperty (Admin.reviverFactory coll)) ms
  = Ok (JSON.revive_members
          (JSON.InternalizeJSONProperty (reviverFactory coll)) ms).
Proof.
  induction 1 as [|[name x] r Hx Hr IH]; intros Ha;
    cbn [Admin.revive_members JSON.revive_members] in *; [reflexivity|].
  cbn [snd] in Hx. specialize (Hx (KName name)).
  assert (Hs : Admin.accepted
                 (JSON.InternalizeJSONProperty (reviverFactory coll) (KName name) x)
               = true
               /\ forallb (fun p => Admin.accepted (snd p))
                    (JSON.revive_members
                       (JSON.InternalizeJSONProperty (reviverFactory coll)) r)
                  = true).
  { destruct (JSON.InternalizeJSONProperty (reviverFactory coll) (KName name) x);
      cbn [forallb snd] in Ha; try (now apply andb_true_iff in Ha);
      now split. }
  destruct Hs as [Ax Ar]. rewrite (Hx Ax), (IH Ar).
  now destruct (JSON.InternalizeJSONProperty (reviverFactory coll) (KName name) x).
Qed.

(** When the constructors return every instance the decoded value holds,
    decoding with them gives that value. *)
Lemma decode_accepted (coll : CollectionReference) (j : json) :
  forall k,
    Admin.accepted (JSON.InternalizeJSONProperty (reviverFactory coll) k j) = true ->
    Admin.InternalizeJSONProperty (Admin.reviverFactory coll) k j
    = Ok (JSON.InternalizeJSONProperty (reviverFactory coll) k j).
Proof.
  induction j as [|b|x|s|l IH|ms IH] using json_ind'; intros k Ha;
    try reflexivity.
  - now apply decode_string.
  - cbn [Admin.InternalizeJSONProperty JSON.InternalizeJSONProperty] in *.
    cbn [reviverFactory Admin.accepted] in Ha.
    now rewrite (decode_elems coll l IH O Ha).
  - cbn [Admin.InternalizeJSONProperty JSON.InternalizeJSONProperty] in *.
    cbn [reviverFactory Admin.accepted] in Ha.
    now rewrite (decode_members coll ms IH Ha).
Qed.

(** X1. A supported value in which no string starts with a sentinel, every
    reference is of the collection's client and has no colon in its path,
    and every Timestamp, GeoPoint and reference has fields the constructor
    of its class accepts, as it did when the instance was made, is written
    as a text by JSON.stringify with the replacer, and JSON.parse of the
    text with the reviver returns the value, without an exception. *)
Theorem X1_decode_encode_accepted (coll : CollectionReference) (v : value) :
  supported v = true -> unambiguous coll v = true -> Admin.accepted v = true ->
  exists j, encode v = JSON.Text j /\ Admin.decode coll j = Ok v.
Proof.
  intros Hs Hu Ha.
  destruct (roundtrips_supported coll v Hs Hu (S (height v)) (KName "") (KName "")
              (Nat.lt_succ_diag_r _)) as (j & Ej & Dj).
  exists j. split; [exact Ej|].
  unfold Admin.decode, Admin.parse. unfold decode, JSON.parse in Dj.
  rewrite (decode_accepted coll j (KName "")); rewrite Dj; [reflexivity|exact Ha].
Qed.

(** *** The fields the reviver reads *)

(** The reviver reads the fields between the colons and ignores what
    follows the ones it reads. *)
Lemma reviver_fields (coll : CollectionReference) (k : key) (a b c : string) :
  has_char ":" a = false -> has_char ":" b = false ->
  reviverFactory coll k (VStr ("$$DocumentReference$$:" ++ a ++ ":" ++ c))
  = VDocRef (firestore coll) a
  /\ reviverFactory coll k (VStr ("$$Timestamp$$:" ++ a ++ ":" ++ b ++ ":" ++ c))
     = VTimestamp (parseInt a) (parseInt b)
  /\ reviverFactory coll k (VStr ("$$GeoPoint$$:" ++ a ++ ":" ++ b ++ ":" ++ c))
     = VGeoPoint (parseFloat a) (parseFloat b).
Proof.
  intros Ha Hb.
  assert (H1 : forall tag, has_char ":" tag = false ->
            exists rest, split ":" (tag ++ String ":" (a ++ String ":" c))
                         = tag :: a :: rest).
  { intros tag Ht. rewrite (split_app _ _ _ Ht), (split_app _ _ _ Ha). eauto. }
  assert (H2 : forall tag, has_char ":" tag = false ->
            exists rest,
              split ":" (tag ++ String ":" (a ++ String ":" (b ++ String ":" c)))
              = tag :: a :: b :: rest).
  { intros tag Ht.
    rewrite (split_app _ _ _ Ht), (split_app _ _ _ Ha), (split_app _ _ _ Hb).
    eauto. }
  split; [|split].
  - rewrite reviver_reference. unfold reconstruct.
    change ("$$DocumentReference$$:" ++ a ++ ":" ++ c)
      with ("$$DocumentReference$$" ++ String ":" (a ++ String ":" c)).
    destruct (H1 "$$DocumentReference$$" eq_refl) as [rest ->]. reflexivity.
  - rewrite reviver_timestamp. unfold reconstruct.
    change ("$$Timestamp$$:" ++ a ++ ":" ++ b ++ ":" ++ c)
      with ("$$Timestamp$$" ++ String ":" (a ++ String ":" (b ++ String ":" c))).
    destruct (H2 "$$Timestamp$$" eq_refl) as [rest ->]. reflexivity.
  - rewrite reviver_geopoint. unfold reconstruct.
    change ("$$GeoPoint$$:" ++ a ++ ":" ++ b ++ ":" ++ c)
      with ("$$GeoPoint$$" ++ String ":" (a ++ String ":" (b ++ String ":" c))).
    destruct (H2 "$$GeoPoint$$" eq_refl) as [rest ->]. reflexivity.
Qed.

(** A sentinel with one field: the missing one is read as [undefined]. *)
Lemma reviver_one_field (coll : CollectionReference) (k : key) (a : string) :
  has_char ":" a = false ->
  reviverFactory coll k (VStr ("$$Timestamp$$:" ++ a)) = VTimestamp (parseInt a) NaN
  /\ reviverFactory coll k (VStr ("$$GeoPoint$$:" ++ a)) = VGeoPoint (parseFloat a) NaN.
Proof.
  intros Ha.
  split.
  - rewrite reviver_timestamp. unfold reconstruct.
    change ("$$Timestamp$$:" ++ a) with ("$$Timestamp$$" ++ String ":" a).
    rewrite split_sentinel, (split_none _ _ Ha) by reflexivity. reflexivity.
  - rewrite reviver_geopoint. unfold reconstruct.
    change ("$$GeoPoint$$:" ++ a) with ("$$GeoPoint$$" ++ String ":" a).
    rewrite split_sentinel, (split_none _ _ Ha) by reflexivity. reflexivity.
Qed.

Lemma matches_timestamp (rest : string) : symbolMatch ("$$Timestamp$$:" ++ rest) = true.
Proof. unfold symbolMatch. now rewrite prefix_app. Qed.

Lemma matches_geopoint (rest : string) : symbolMatch ("$$GeoPoint$$:" ++ rest) = true.
Proof. unfold symbolMatch. now rewrite (prefix_app "$$GeoPoint$$:"), orb_true_r. Qed.

Lemma matches_reference (rest : string) :
  symbolMatch ("$$DocumentReference$$:" ++ rest) = true.
Proof.
  unfold symbolMatch. now rewrite (prefix_app "$$DocumentReference$$:"), orb_true_r.
Qed.

(** X2. The reviver ignores what follows the fields it reads.  Of a
    DocumentReference sentinel it passes the text up to the next colon to
    [firestore.doc] as the path, so a path is cut at its first colon; of a
    Timestamp or GeoPoint sentinel with the two numbers the replacer
    prints and a third field, it passes the two numbers to the
    constructor.  The result is the constructor's. *)
Theorem X2_fields_beyond_ignored (coll : CollectionReference) (k : key)
  (seconds nanoseconds latitude longitude : number) (p c : string) :
  is_plain_integer seconds = true -> is_plain_integer nanoseconds = true ->
  wf latitude = true -> wf longitude = true -> has_char ":" p = false ->
  Admin.reviverFactory coll k (VStr ("$$DocumentReference$$:" ++ p ++ ":" ++ c))
  = Admin.firestore_doc (firestore coll) p
  /\ Admin.reviverFactory coll k
       (VStr ("$$Timestamp$$:" ++ toString seconds ++ ":" ++ toString nanoseconds
              ++ ":" ++ c))
     = Admin.new_Timestamp seconds nanoseconds
  /\ Admin.reviverFactory coll k
       (VStr ("$$GeoPoint$$:" ++ toString latitude ++ ":" ++ toString longitude
              ++ ":" ++ c))
     = Admin.new_GeoPoint latitude longitude.
Proof.
  intros Hs Hn Ha Ho Hp.
  pose proof (toString_no_colon seconds (plain_integer_wf _ Hs)) as Cs.
  pose proof (toString_no_colon nanoseconds (plain_integer_wf _ Hn)) as Cn.
  pose proof (toString_no_colon latitude Ha) as Ca.
  pose proof (toString_no_colon longitude Ho) as Co.
  rewrite !reviver_constructs.
  rewrite matches_reference, matches_timestamp, matches_geopoint.
  destruct (reviver_fields coll k p p c Hp Hp) as (-> & _ & _).
  destruct (reviver_fields coll k (toString seconds) (toString nanoseconds) c Cs Cn)
    as (_ & -> & _).
  destruct (reviver_fields coll k (toString latitude) (toString longitude) c Ca Co)
    as (_ & _ & ->).
  rewrite !parseInt_toString, !parseFloat_toString by assumption.
  repeat split.
Qed.

(** X3. A Timestamp or GeoPoint sentinel with a single field has the
    missing field read as [undefined], which parseInt and parseFloat turn
    into NaN: the constructor is called with NaN as its second argument.
    firebase-admin rejects it, so decoding such a string throws. *)
Theorem X3_missing_field_is_NaN (coll : CollectionReference) (k : key)
  (seconds latitude : number) :
  is_plain_integer seconds = true -> wf latitude = true ->
  Admin.reviverFactory coll k (VStr ("$$Timestamp$$:" ++ toString seconds))
  = Admin.new_Timestamp seconds NaN
  /\ Admin.reviverFactory coll k (VStr ("$$GeoPoint$$:" ++ toString latitude))
     = Admin.new_GeoPoint latitude NaN
  /\ @Admin.reviverFactory Admin.firebase_admin coll k
       (VStr ("$$Timestamp$$:" ++ toString seconds))
     = Throw (Error "Timestamp: argument is not valid")
  /\ @Admin.reviverFactory Admin.firebase_admin coll k
       (VStr ("$$GeoPoint$$:" ++ toString latitude))
     = Throw (Error "GeoPoint: argument is not valid").
Proof.
  intros Hs Ha.
  pose proof (toString_no_colon seconds (plain_integer_wf _ Hs)) as Cs.
  pose proof (toString_no_colon latitude Ha) as Ca.
  rewrite !reviver_constructs, matches_timestamp, matches_geopoint.
  destruct (reviver_one_field coll k (toString seconds) Cs) as [-> _].
  destruct (reviver_one_field coll k (toString latitude) Ca) as [_ ->].
  rewrite parseInt_toString, parseFloat_toString by assumption.
  cbn [Admin.construct]. unfold Admin.new_Timestamp, Admin.new_GeoPoint.
  destruct (firebase_admin_rejects_NaN seconds) as [-> _].
  destruct (firebase_admin_rejects_NaN latitude) as [_ ->].
  repeat split.
Qed.

End Checked.

Lemma X1_decode_encode_accepted_witness :
  supported ada = true /\ unambiguous users ada = true
  /\ @Admin.accepted Admin.firebase_admin ada = true
  /\ exists j, encode ada = JSON.Text j
               /\ @Admin.decode Admin.firebase_admin users j = Ok ada.
Proof.
  split; [reflexivity|]. split; [reflexivity|]. split; [reflexivity|].
  apply (@X1_decode_encode_accepted Admin.firebase_admin users ada); reflexivity.
Defined.

Lemma X2_fields_beyond_ignored_witness :
  is_plain_integer (Finite false "169" 10) = true
  /\ is_plain_integer Zero = true
  /\ wf (Finite false "593293" 2) = true
  /\ wf (Finite true "15" (-6)) = true
  /\ has_char ":" "users/a" = false
  /\ @Admin.reviverFactory Admin.firebase_admin users (KName "x")
       (VStr "$$DocumentReference$$:users/a:b/c:d")
     = Ok (VDocRef demo "users/a").
Proof.
  split; [reflexivity|]. split; [reflexivity|]. split; [reflexivity|].
  split; [reflexivity|]. split; [reflexivity|].
  exact (proj1
    (@X2_fields_beyond_ignored Admin.firebase_admin users (KName "x")
       (Finite false "169" 10) Zero (Finite false "593293" 2)
       (Finite true "15" (-6)) "users/a" "b/c:d"
       eq_refl eq_refl eq_refl eq_refl eq_refl)).
Defined.

Lemma X3_missing_field_is_NaN_witness :
  is_plain_integer (Finite false "169" 10) = true
  /\ wf (Finite false "593293" 2) = true
  /\ @Admin.reviverFactory Admin.firebase_admin users (KName "x")
       (VStr "$$Timestamp$$:1690000000")
     = Throw (Error "Timestamp: argument is not valid").
Proof.
  split; [reflexivity|]. split; [reflexivity|].
  exact (proj1 (proj2 (proj2
    (@X3_missing_field_is_NaN Admin.firebase_admin users (KName "x")
       (Finite false "169" 10) (Finite false "593293" 2) eq_refl eq_refl)))).
Defined.

(** X4. Reviving is idempotent: what the reviver returns, the reviver
    leaves as it is, under any keys. *)
Theorem X4_reviver_idempotent (coll : CollectionReference) (k k' : key)
  (v : value) :
  reviverFactory coll k (reviverFactory coll k' v) = reviverFactory coll k' v.
Proof.
  rewrite (reviver_by_kind coll k' v).
  destruct v as [ | |b|x|s|l|ps|name|sec n|a o|fs p]; try reflexivity.
  unfold revive_by_kind.
  destruct (sentinel_kind s) as [kd|] eqn:E.
  - now destruct kd.
  - rewrite reviver_by_kind. unfold revive_by_kind. now rewrite E.
Qed.

(** X5. Two different supported values without ambiguity are never
    written as the same text: no two of them share a cache entry. *)
Theorem X5_encode_injective (coll : CollectionReference) (v1 v2 : value) :
  supported v1 = true -> unambiguous coll v1 = true ->
  supported v2 = true -> unambiguous coll v2 = true ->
  v1 <> v2 -> encode v1 <> encode v2.
Proof.
  intros S1 U1 S2 U2 Hne E. apply Hne.
  destruct (roundtrips_supported coll v1 S1 U1 (S (height v1)) (KName "") (KName "")
              (Nat.lt_succ_diag_r _)) as (j1 & E1 & D1).
  destruct (roundtrips_supported coll v2 S2 U2 (S (height v2)) (KName "") (KName "")
              (Nat.lt_succ_diag_r _)) as (j2 & E2 & D2).
  unfold encode, JSON.stringify in E. rewrite E1, E2 in E.
  injection E as ->. now rewrite <- D1, <- D2.
Qed.

Lemma X5_encode_injective_witness :
  supported ada = true /\ unambiguous users ada = true
  /\ supported grace = true /\ unambiguous users grace = true
  /\ ada <> grace /\ encode ada <> encode grace.
Proof.
  split; [reflexivity|]. split; [reflexivity|].
  split; [reflexivity|]. split; [reflexivity|].
  split; [discriminate|].
  apply (X5_encode_injective users ada grace); try reflexivity. discriminate.
Defined.

(** *** JSON data without sentinels *)

Lemma of_json_defined (j : json) : of_json j <> VUndefined.
Proof. destruct j; discriminate. Qed.

Lemma decode_plain_node (coll : CollectionReference) (j : json) :
  sentinel_free j = true ->
  forall k, JSON.InternalizeJSONProperty (reviverFactory coll) k j = of_json j.
Proof.
  induction j as [|b|x|s|l IH|ms IH] using json_ind'; intros Hf k;
    try reflexivity.
  - simpl in *. apply negb_true_iff in Hf. now rewrite Hf.
  - simpl. f_equal. simpl in Hf.
    generalize O. induction IH as [|x r Hx Hr IHr]; intros i; simpl;
      [reflexivity|].
    simpl in Hf. apply andb_true_iff in Hf as [Hfx Hfr].
    now rewrite Hx, IHr.
  - simpl. f_equal. simpl in Hf.
    induction IH as [|[name x] r Hx Hr IHr]; simpl; [reflexivity|].
    simpl in Hf, Hx. apply andb_true_iff in Hf as [Hfx Hfr].
    rewrite Hx, IHr by assumption.
    pose proof (of_json_defined x) as Hd.
    destruct (of_json x); try reflexivity. contradiction.
Qed.

Lemma encode_plain_node (j : json) :
  finite_numbers j = true ->
  forall fuel k, (height (of_json j) < fuel)%nat ->
  JSON.SerializeJSONProperty replacer fuel k (of_json j) = JSON.Text j.
Proof.
  induction j as [|b|x|s|l IH|ms IH] using json_ind'; intros Hf [|fuel] k Hh;
    try lia; try reflexivity.
  - simpl in *. now rewrite Hf.
  - simpl in Hf, Hh. simpl.
    assert (E : forall i,
      JSON.SerializeJSONArray (JSON.SerializeJSONProperty replacer fuel) i
        (map of_json l) = Some l).
    { apply Nat.succ_lt_mono in Hh. revert Hf Hh.
      induction IH as [|x r Hx Hr IHr]; intros Hf Hh i; simpl in *;
        [reflexivity|].
      apply andb_true_iff in Hf as [Hfx Hfr].
      rewrite Hx, IHr by (assumption || lia). reflexivity. }
    now rewrite E.
  - simpl in Hf, Hh. simpl.
    assert (E :
      JSON.SerializeJSONObject (JSON.SerializeJSONProperty replacer fuel)
        (map (fun m => (fst m, of_json (snd m))) ms) = Some ms).
    { apply Nat.succ_lt_mono in Hh. revert Hf Hh.
      induction IH as [|[name x] r Hx Hr IHr]; intros Hf Hh; simpl in *;
        [reflexivity|].
      apply andb_true_iff in Hf as [Hfx Hfr].
      rewrite Hx, IHr by (assumption || lia). reflexivity. }
    now rewrite E.
Qed.

(** X7. A cache entry in which no string starts with a sentinel is decoded
    to exactly the data it holds, nothing in it is turned into a Tagged
    Value; and when its numbers are finite, encoding what was decoded gives
    the entry back. *)
Theorem X7_plain_entry (coll : CollectionReference) (j : json) :
  sentinel_free j = true -> finite_numbers j = true ->
  decode coll j = of_json j /\ encode (decode coll j) = JSON.Text j.
Proof.
  intros Hs Hf. unfold decode, JSON.parse.
  rewrite (decode_plain_node coll j Hs). split; [reflexivity|].
  apply encode_plain_node; [exact Hf | apply Nat.lt_succ_diag_r].
Qed.

Lemma X7_plain_entry_witness :
  sentinel_free entry = true /\ finite_numbers entry = true
  /\ decode users entry = of_json entry
  /\ encode (decode users entry) = JSON.Text entry.
Proof.
  split; [reflexivity|]. split; [reflexivity|].
  apply (X7_plain_entry users entry); reflexivity.
Defined.

End CodecMore.

(** ** More on the converter *)

Module ConverterMore.

Import ConverterFacts DataSourceSpec.

Lemma lookup_app {A : Type} (name : string) (l1 l2 : list (string * A)) :
  lookup name (l1 ++ l2)%list
  = match lookup name l1 with
    | Some y => Some y
    | None => lookup name l2
    end.
Proof.
  induction l1 as [|[k y] l1 IH]; simpl; [reflexivity|].
  now destruct (k =? name).
Qed.

Lemma lookup_in {A : Type} (name : string) (x : A) (l : list (string * A)) :
  lookup name l = Some x -> In name (map fst l).
Proof.
  induction l as [|[k y] l IH]; simpl; [discriminate|].
  destruct (k =? name) eqn:E.
  - apply String.eqb_eq in E. now left.
  - intros H. right. now apply IH.
Qed.

Lemma lookup_notin {A : Type} (name : string) (l : list (string * A)) :
  has_prop name l = false -> ~ In name (map fst l).
Proof.
  unfold has_prop. induction l as [|[k y] l IH]; simpl; [tauto|].
  destruct (k =? name) eqn:E; [discriminate|].
  intros H [Hk|Hin]; [|now apply IH].
  apply String.eqb_neq in E. contradiction.
Qed.

(** With distinct names, the last definition of a name is the first. *)
Lemma lookup_rev {A : Type} (name : string) (l : list (string * A)) :
  NoDup (map fst l) -> lookup name (rev l) = lookup name l.
Proof.
  induction l as [|[k y] l IH]; simpl; [reflexivity|].
  intros Hd. inversion Hd as [|? ? Hk Hl]; subst.
  rewrite lookup_app, (IH Hl). simpl.
  destruct (lookup name l) as [z|] eqn:E.
  - destruct (k =? name) eqn:E'; [|reflexivity].
    apply String.eqb_eq in E'. subst.
    apply lookup_in in E. contradiction.
  - reflexivity.
Qed.

Lemma set_prop_fresh {A : Type} (name : string) (x : A) (ps : list (string * A)) :
  has_prop name ps = false -> set_prop name x ps = (ps ++ [(name, x)])%list.
Proof.
  unfold has_prop. induction ps as [|[k y] r IH]; simpl; [reflexivity|].
  destruct (k =? name); [discriminate|].
  intros H. now rewrite IH.
Qed.

Lemma has_prop_app {A : Type} (name : string) (l1 l2 : list (string * A)) :
  has_prop name (l1 ++ l2)%list = has_prop name l1 || has_prop name l2.
Proof.
  unfold has_prop. rewrite lookup_app. now destruct (lookup name l1).
Qed.

(** Spreading properties with distinct names that the target does not
    have puts them after the target. *)
Lemma spread_fresh {A : Type} (source target : list (string * A)) :
  NoDup (map fst source) ->
  (forall name, In name (map fst source) -> has_prop name target = false) ->
  spread target source = (target ++ source)%list.
Proof.
  unfold spread. revert target.
  induction source as [|[k x] r IH]; intros target Hd Hf; simpl.
  - now rewrite app_nil_r.
  - inversion Hd as [|? ? Hk Hr]; subst.
    rewrite set_prop_fresh by (apply Hf; now left).
    rewrite IH; [now rewrite <- app_assoc | exact Hr |].
    intros name Hin. rewrite has_prop_app, (Hf name) by now right.
    unfold has_prop; simpl.
    destruct (k =? name) eqn:E; [|reflexivity].
    apply String.eqb_eq in E. subst. contradiction.
Qed.

Lemma remove_prop_absent {A : Type} (name : string) (ps : list (string * A)) :
  has_prop name ps = false -> remove_prop name ps = ps.
Proof.
  unfold has_prop, remove_prop.
  induction ps as [|[k y] r IH]; simpl; [reflexivity|].
  destruct (k =? name); [discriminate|].
  intros H. simpl. now rewrite IH.
Qed.

Lemma remove_prop_names {A : Type} (name : string) (ps : list (string * A)) :
  NoDup (map fst ps) -> NoDup (map fst (remove_prop name ps)).
Proof.
  unfold remove_prop.
  induction ps as [|[k y] r IH]; simpl; [constructor|].
  intros Hd. inversion Hd as [|? ? Hk Hr]; subst.
  destruct (negb (k =? name)); simpl; [|now apply IH].
  constructor; [|now apply IH].
  intros Hin. apply Hk.
  apply in_map_iff in Hin as (p & Ep & Hp).
  apply filter_In in Hp as [Hp _].
  apply in_map_iff. eauto.
Qed.

(** What [toFirestore] leaves: every field but the two it takes out. *)
Lemma lookup_toFirestore (name : string) (doc : document) :
  lookup name (toFirestore doc)
  = if (name =? "id") || (name =? "collection") then None else lookup name doc.
Proof.
  unfold toFirestore. rewrite !lookup_remove_prop.
  rewrite (String.eqb_sym "collection" name), (String.eqb_sym "id" name).
  destruct (name =? "id"), (name =? "collection"); reflexivity.
Qed.

Lemma fromFirestore_fields (snap : QueryDocumentSnapshot) (name : string) :
  NoDup (map fst (snap_data snap)) ->
  lookup name (fromFirestore snap)
  = match lookup name (snap_data snap) with
    | Some x => Some x
    | None =>
        if name =? "id" then Some (VStr (snap_id snap))
        else if name =? "collection" then Some (VStr (snap_parent_id snap))
        else None
    end.
Proof.
  intros Hd. unfold fromFirestore.
  rewrite lookup_spread_new, (lookup_rev name _ Hd).
  destruct (lookup name (snap_data snap)); [reflexivity|].
  cbn [lookup].
  rewrite (String.eqb_sym "id" name), (String.eqb_sym "collection" name).
  reflexivity.
Qed.

(** X8. In a document that [fromFirestore] produces, every field of the
    stored data has its stored value, also a stored [id] or [collection],
    which then stands in place of the id of the snapshot or of its
    collection; those two are what the snapshot says only when the stored
    data has no such field. *)
Theorem X8_stored_fields_win (snap : QueryDocumentSnapshot) :
  NoDup (map fst (snap_data snap)) ->
  lookup "id" (fromFirestore snap)
  = Some (match lookup "id" (snap_data snap) with
          | Some x => x
          | None => VStr (snap_id snap)
          end)
  /\ lookup "collection" (fromFirestore snap)
     = Some (match lookup "collection" (snap_data snap) with
             | Some x => x
             | None => VStr (snap_parent_id snap)
             end)
  /\ (forall name x,
        lookup name (snap_data snap) = Some x ->
        lookup name (fromFirestore snap) = Some x).
Proof.
  intros Hd. split; [|split].
  - rewrite (fromFirestore_fields snap "id" Hd).
    now destruct (lookup "id" (snap_data snap)).
  - rewrite (fromFirestore_fields snap "collection" Hd).
    now destruct (lookup "collection" (snap_data snap)).
  - intros name x Hx. now rewrite (fromFirestore_fields snap name Hd), Hx.
Qed.

Lemma X8_stored_fields_win_witness :
  NoDup (map fst (snap_data shadowing))
  /\ lookup "id" (fromFirestore shadowing) = Some (VStr "other").
Proof.
  assert (Hd : NoDup (map fst (snap_data shadowing)))
    by (simpl; repeat constructor; simpl; intuition discriminate).
  split; [exact Hd|].
  exact (proj1 (X8_stored_fields_win shadowing Hd)).
Defined.

(** X9. Reading and writing back: for stored data with distinct field
    names and no [id] or [collection] field, [toFirestore] of the document
    that [fromFirestore] produces is the stored data, field by field in
    the same order. *)
Theorem X9_toFirestore_fromFirestore (snap : QueryDocumentSnapshot) :
  NoDup (map fst (snap_data snap)) ->
  has_prop "id" (snap_data snap) = false ->
  has_prop "collection" (snap_data snap) = false ->
  toFirestore (fromFirestore snap) = snap_data snap.
Proof.
  intros Hd Hi Hc. unfold fromFirestore.
  rewrite spread_fresh.
  - unfold toFirestore.
    change (remove_prop "id"
              ([("id", VStr (snap_id snap));
                ("collection", VStr (snap_parent_id snap))] ++ snap_data snap)%list)
      with (("collection", VStr (snap_parent_id snap))
              :: remove_prop "id" (snap_data snap)).
    rewrite (remove_prop_absent _ _ Hi).
    change (remove_prop "collection"
              (("collection", VStr (snap_parent_id snap)) :: snap_data snap))
      with (remove_prop "collection" (snap_data snap)).
    apply remove_prop_absent, Hc.
  - exact Hd.
  - intros name Hin. unfold has_prop; cbn [lookup].
    destruct ("id" =? name) eqn:E1.
    { apply String.eqb_eq in E1. subst.
      apply lookup_notin in Hi. contradiction. }
    destruct ("collection" =? name) eqn:E2; [|reflexivity].
    apply String.eqb_eq in E2. subst.
    apply lookup_notin in Hc. contradiction.
Qed.

Lemma X9_toFirestore_fromFirestore_witness :
  NoDup (map fst (snap_data stored))
  /\ has_prop "id" (snap_data stored) = false
  /\ has_prop "collection" (snap_data stored) = false
  /\ toFirestore (fromFirestore stored) = snap_data stored.
Proof.
  assert (Hd : NoDup (map fst (snap_data stored)))
    by (simpl; repeat constructor; simpl; intuition discriminate).
  split; [exact Hd|]. split; [reflexivity|]. split; [reflexivity|].
  apply (X9_toFirestore_fromFirestore stored); [exact Hd | reflexivity | reflexivity].
Defined.

(** X10. Writing and reading back: for a document with distinct field
    names whose [id] and [collection] are those of the place it is stored
    at, the document that [fromFirestore] produces from the data that
    [toFirestore] handed to the store has every field of the document,
    with its value, and no other. *)
Theorem X10_fromFirestore_toFirestore (doc : document) (i c name : string) :
  NoDup (map fst doc) ->
  lookup "id" doc = Some (VStr i) ->
  lookup "collection" doc = Some (VStr c) ->
  lookup name
    (fromFirestore {| snap_id := i; snap_parent_id := c;
                      snap_data := toFirestore doc |})
  = lookup name doc.
Proof.
  intros Hd Hi Hc.
  rewrite fromFirestore_fields.
  - cbn [snap_data snap_id snap_parent_id]. rewrite lookup_toFirestore.
    destruct (name =? "id") eqn:E1.
    { apply String.eqb_eq in E1. now subst. }
    destruct (name =? "collection") eqn:E2.
    { apply String.eqb_eq in E2. now subst. }
    cbn [orb]. now destruct (lookup name doc).
  - cbn [snap_data]. unfold toFirestore. now apply remove_prop_names, remove_prop_names.
Qed.

Lemma X10_fromFirestore_toFirestore_witness :
  NoDup (map fst Sample.ada)
  /\ lookup "name"
       (fromFirestore {| snap_id := "42"; snap_parent_id := "users";
                         snap_data := toFirestore Sample.ada |})
     = lookup "name" Sample.ada.
Proof.
  assert (Hd : NoDup (map fst Sample.ada))
    by (simpl; repeat constructor; simpl; intuition discriminate).
  split; [exact Hd|].
  apply (X10_fromFirestore_toFirestore Sample.ada "42" "users" "name");
    [exact Hd | reflexivity | reflexivity].
Defined.

End ConverterMore.

(** ** More on the data source *)

Module DataSourceMore.

Import DataSource DataSourceFacts DataSourceSpec ConverterFacts ConverterMore.

Section More.

Context {S C : Type} `{DocumentStore S}.

Ltac run :=
  unfold deleteOne, updateOne, updateOnePartial, createOne, findManyByQuery,
    prime_result, data, on_store, call, debug, bind, emit, run_store,
    run_action, ret, throw, of_result;
  cbv zeta; cbn [fst snd store cache_tiers trace].

Ltac norm :=
  cbv beta iota zeta; cbn [fst snd store cache_tiers trace option_map].

Ltac cases :=
  norm;
  repeat match goal with
  | |- context [logger ?o] => destruct (logger o); norm
  | |- context [truthy (dataLoader ?t)] => destruct (truthy (dataLoader t)); norm
  | |- context [store_query ?q ?st] =>
      destruct (store_query q st) as [[?|?] ?]; norm
  | |- context [store_delete ?c ?p ?st] =>
      destruct (store_delete c p st) as [[?|?] ?]; norm
  | |- context [store_add ?c ?d ?st] =>
      destruct (store_add c d st) as [[?|?] ?]; norm
  | |- context [store_set ?c ?p ?d ?m ?st] =>
      destruct (store_set c p d m st) as [[?|?] ?]; norm
  | |- context [store_get ?c ?p ?st] =>
      destruct (store_get c p st) as [[[?|]|?] ?]; norm
  | |- context [primeLoader ?t ?i ?l ?sc] =>
      destruct (primeLoader t i l sc) as [[[]|?] [? ?]]; norm
  | |- context [deleteFromCacheById ?t ?i ?sc] =>
      destruct (deleteFromCacheById t i sc) as [[[]|?] [? ?]]; norm
  end.

Lemma lacks_capability_members (v a b c d : value) :
  member v "id" = Ok a -> member v "path" = Ok b ->
  member v "firestore" = Ok c -> member v "doc" = Ok d ->
  lacks_capability v = negb (truthy a && truthy b && truthy c && truthy d).
Proof.
  intros Ha Hb Hc Hd. unfold lacks_capability. cbn [existsb].
  rewrite Ha, Hb, Hc, Hd.
  now destruct (truthy a), (truthy b), (truthy c), (truthy d).
Qed.

(** X11. A value whose [id], [path], [firestore] and [doc] are all truthy
    passes the check of the constructor, whatever else it is.  The
    constructor then calls [withConverter] on it: it returns the data
    source over the handle that call returns, with the four placeholder
    methods and no loader; it throws what the call throws, and a TypeError
    when the value has no such method. *)
Theorem X11_constructor_accepts (arg : value) (opts : FirestoreDataSourceOptions)
  (w : @world S C) :
  lacks_capability arg = false ->
  fst (constructor arg opts w)
  = match member arg "withConverter" with
    | Ok (VFun _) =>
        match store_with_converter arg with
        | Ok converted => Ok (constructed converted opts)
        | Throw e => Throw e
        end
    | Ok _ => Throw (TypeError "collection.withConverter is not a function")
    | Throw e => Throw e
    end.
Proof.
  intros Hl.
  assert (Hu : arg <> VUndefined) by (intros ->; discriminate Hl).
  assert (Hn : arg <> VNull) by (intros ->; discriminate Hl).
  destruct (member_defined arg "id" Hu Hn) as [a Ha].
  destruct (member_defined arg "path" Hu Hn) as [b Hb].
  destruct (member_defined arg "firestore" Hu Hn) as [c Hc].
  destruct (member_defined arg "doc" Hu Hn) as [d Hd].
  destruct (isFirestoreCollection_truthy arg a b c d Ha Hb Hc Hd)
    as (r & Er & Tr).
  rewrite (lacks_capability_members arg a b c d Ha Hb Hc Hd), <- Tr in Hl.
  apply negb_false_iff in Hl.
  unfold constructor, debug, bind, emit, ret, throw, of_result, withConverter.
  rewrite Er.
  destruct (logger opts); cbv beta iota; rewrite Hl; cbn [negb];
    destruct (member arg "withConverter") as [[]|e]; try reflexivity;
    destruct (store_with_converter arg); reflexivity.
Qed.

(** X12. Before [initialize], a mutating operation still writes to the
    store and only then throws 'DataSource not initialized': [deleteOne]
    throws it after the document is deleted, [updateOne] after the
    document is set and read back, and the store keeps what was written;
    [updateOne] returns without an error only when the store has no such
    document to return. *)
Theorem X12_mutation_before_initialize (c : value)
  (opts : FirestoreDataSourceOptions) (w : @world S C) :
  (forall id,
     match store_delete c (VStr id) (store w) with
     | (Ok _, s1) =>
         fst (deleteOne (constructed c opts) id w)
         = Throw (Error "DataSource not initialized")
         /\ store (snd (deleteOne (constructed c opts) id w)) = s1
     | (Throw e, s1) =>
         fst (deleteOne (constructed c opts) id w) = Throw e
         /\ store (snd (deleteOne (constructed c opts) id w)) = s1
     end)
  /\ (forall doc,
        match store_set c (field "id" doc) (toFirestore doc) false (store w) with
        | (Ok _, s1) =>
            match store_get c (field "id" doc) s1 with
            | (Ok (Some _), s2) =>
                fst (updateOne (constructed c opts) doc w)
                = Throw (Error "DataSource not initialized")
                /\ store (snd (updateOne (constructed c opts) doc w)) = s2
            | (Ok None, s2) =>
                fst (updateOne (constructed c opts) doc w) = Ok None
                /\ store (snd (updateOne (constructed c opts) doc w)) = s2
            | (Throw e, s2) =>
                fst (updateOne (constructed c opts) doc w) = Throw e
                /\ store (snd (updateOne (constructed c opts) doc w)) = s2
            end
        | (Throw e, s1) =>
            fst (updateOne (constructed c opts) doc w) = Throw e
            /\ store (snd (updateOne (constructed c opts) doc w)) = s1
        end).
Proof.
  split.
  - intros id. run. unfold constructed; cbn [collection options deleteFromCacheById].
    unfold placeholderHandler. cases; split; reflexivity.
  - intros doc. run. unfold constructed; cbn [collection options primeLoader].
    unfold placeholderHandler. cases; split; reflexivity.
Qed.

(** X13. A query that yields no document still primes: with a loader,
    [findManyByQuery] calls [primeLoader] on the empty list, because the
    list of results, though empty, is truthy. *)
Theorem X13_empty_query_still_primes (this : @FirestoreDataSource S C)
  (queryFunction : value -> value) (ttl : option number) (w : @world S C)
  (qSnap : QuerySnapshot) (s1 : S) :
  truthy (dataLoader this) = true ->
  store_query (queryFunction (collection this)) (store w) = (Ok qSnap, s1) ->
  docs qSnap = [] ->
  effects (trace (snd (findManyByQuery this queryFunction ttl w)))
  = (effects (trace w)
     ++ [EStore (RunQuery (queryFunction (collection this)));
         ECache (PrimeLoader (Many []) ttl)])%list.
Proof.
  intros Hl Hq Hd. run. rewrite Hq, Hl, Hd. norm. cbn [map].
  destruct (primeLoader this (Many []) ttl (s1, cache_tiers w))
    as [[[]|e] [s2 c2]]; norm;
    destruct (logger (options this)); norm;
    rewrite ?effects_app; cbn [effects filter is_effect app];
    rewrite ?app_nil_r, <- ?app_assoc; reflexivity.
Qed.

End More.

Import Sample.

Lemma X11_constructor_accepts_witness :
  lacks_capability impostor = false
  /\ fst (constructor impostor console start) = Ok (constructed impostor console).
Proof.
  split; [reflexivity|].
  exact (X11_constructor_accepts impostor console start eq_refl).
Defined.

Lemma X13_empty_query_still_primes_witness :
  truthy (dataLoader initialized) = true
  /\ effects (trace (snd (findManyByQuery initialized all_users None empty_start)))
     = [EStore (RunQuery users); ECache (PrimeLoader (Many []) None)].
Proof.
  split; [reflexivity|].
  apply (X13_empty_query_still_primes initialized all_users None empty_start
           {| docs := []; readTime := VTimestamp (Finite false "169" 10) Zero |}
           (store empty_start));
    reflexivity.
Defined.

End DataSourceMore.
